(* ===== verification/_CoqProject ===== *)
-Q . S2P
Prelude.v
JsString.v
HtmlInput.v
Regex.v
EmailValidator.v
EcmaSplit.v
FormModel.v
Invitation.v
ArtifactAdapter.v
Controller.v
SubmissionSpec.v
