(* ===== verification/Prelude.v ===== *)
(** * Celebrify: a verification development of the invitation form

    The repository (chaisthra/Celebrify) is a React front end. Its only
    logic is in [src/src/components/CreateInvitation.tsx]. The form
    component keeps the event fields in a [FormData] state object, checks
    the comma-separated guest list with a regular expression, builds the
    request payload ([jsonData]) and gets a typed response from
    [mockApiResponse], a stand-in for the generation backend. It then
    waits 1500 ms and shows the response. The rest of the file is JSX
    markup. The model keeps only the markup that constrains behaviour:
    the [required] attributes (the browser checks them before [onSubmit]
    fires), the options of the event-type [<select>], the
    [disabled={isSubmitting}] submit button and the [onClose] callback of
    the output panel.

    ** How the parts interact

    A change event goes to [handleChange], which updates [formData]. A
    submission that the browser lets through goes to [handleSubmit]. It
    validates the guest list ([EmailValidator]), builds [jsonData]
    ([FormModel]), calls the backend ([Invitation.mockApiResponse] through
    the [Controller.InvitationBackend] class) and suspends at its [await].
    The timer resumes it, and it shows the result. Closing the panel
    clears the result. The spec adds two components the code does not
    have: an adapter from the raw response to a typed artifact, and an
    explicit four-state submission machine. Both are modelled from the
    spec and related to the code by refinement theorems.

    ** Files, in dependency order

    - [Prelude] (this file): the [result] type with its bind notation in
      [celebrify_scope]; the [celebrify] hint databases; the tactics
      [invc], [bool_to_prop], [decide_concrete] and [solve_concrete]; and
      the generic lemmas on [forallb], [List.filter] and membership.
      JavaScript strings are [jsstring], lists of code units ([js] turns a
      literal into one).
    - [JsString]: [String.prototype.trim] ([js_trim]) and [split] with a
      one-unit separator ([js_split]), following ECMA-262, with
      [Array.prototype.join] ([js_join]) and their round trips.
    - [HtmlInput]: the values the browser lets the form's inputs hold
      (the HTML standard's value sanitisation): valid date strings, valid
      time strings, text without line breaks.
    - [Regex]: the JavaScript regular-expression fragment of line 73
      (classes with the whitespace escape and negation, literals, concatenation,
      alternation, [*], [+], anchors). It has an inductive language
      semantics [matches] and a Brzozowski-derivative matcher [accepts];
      [accepts_correct] proves that [accepts] decides [matches]. The
      file also defines [RegExp.prototype.test] as [regex_test], a
      search over start and end offsets, and proves it decides the
      search specification [found_in] for every pattern.
    - [EmailValidator]: lines 70-79 ([guest_emails], [validEmails],
      [email_test], [validate_guest_list]). It also has [address_ok], a
      structural check that the pattern is proved equivalent to, and the
      spec's validator [spec_validate].
    - [EcmaSplit]: the call [split(',')] of line 71 as ECMA-262 writes
      it: [ToUint32] of the absent limit ([split_limit]), the scan with
      [StringIndexOf] ([string_index_of]) as the fuelled loop
      [split_loop], and [ecma_split]. Its lemmas (the loop returns the
      first [limit] segments of [js_split], with enough fuel) justify
      [js_split] as the model of the call; they are facts about the
      language's library, so the manifest lists no property of them.
    - [FormModel]: lines 6-15, 51-60, 81-84, 103-106 and the form markup
      of lines 115-250 ([FormData], [handleChange], the controls
      [form_controls] with their kind, [name] and [required]
      attributes, the values each kind can carry ([value_ok],
      [control_value_ok]), [event_type_options], [required_fields],
      [constraints_ok],
      [build_jsonData]). The state is also kept as the JavaScript object
      ([form_object]) that the computed key [name] of [handleChange]
      updates ([obj_set]). It also has the spec's RequestModel
      [spec_build].
    - [Invitation]: the response interface of lines 17-30 as a record
      and as the JSON values its decoder accepts ([decode_output];
      [encode_output] only builds concrete responses). Also
      [mockApiResponse] of lines 33-48 and objects up to key order
      ([obj_equiv]).
    - [ArtifactAdapter]: the spec's key table and [adapt], with a
      [Proper] instance for [obj_equiv].
    - [Controller]: the component state (lines 50-63). [handleSubmit] is
      split at its [await] into [handleSubmit] (lines 65-90) and [resume]
      (lines 89-100). [dispatch] handles the events of the page; [run]
      plays sequences of them; [reachable] is defined by rule induction.
      The file ends with a concrete session from the spec's example form.
    - [SubmissionSpec]: the spec's Idle/Submitting/Succeeded/Failed
      machine ([spec_step]) and the abstraction [abstract_state].

    ** What the theorems show

    - Controller: every reachable state satisfies [state_inv] (proved by
      induction on [reachable]). From it follow: the button is disabled
      exactly while a handler is suspended; a suspended submission is left
      alone by every other event and can always complete; for every
      backend, every shown output is the backend's answer to the payload
      of a form that passed the checks; the
      output is computed from the form as it was when submitted, even if
      the user edits fields meanwhile. The invariant also keeps every
      field within the values its control can hold, so the submitted
      dates and time are valid date and time strings; submitting and
      letting the timer fire shows an invitation that writes out the
      submitted form's date, time, venue and deadline.
      Counting along any sequence of events, the toasts shown plus the
      submission in flight equal the runs of [handleSubmit]: no
      submission goes unreported. The file also gives the result of
      [handleSubmit] on each of its branches: invalid guests, a
      throwing backend, success.
    - EmailValidator: the pattern is equivalent to the structural check.
      A padded comma-separated list of addresses is accepted and gives
      back the addresses (round trip). The check fails exactly on a bad
      segment. Accepted addresses have no whitespace and no comma. Blank
      segments are rejected, and this is the only way the code is
      stricter than the spec.
    - EmailValidator also shows that the code sends one address per
      comma of the field plus one (a bound).
    - FormModel: every control's [name] is a property of [FormData], so
      a change keeps the state object in the interface's shape and is
      [handleChange] on the record (a typing theorem). The spec's
      [build] gives the request the code sends (refinement).
    - Invitation and ArtifactAdapter: the mock's text writes out every
      field of the request and ends with the custom message. [adapt]
      refines the interface decoder. A missing text key gives a [MappingError] on
      [invitationText], and every success holds its text. For objects
      with distinct keys, [adapt] does not depend on key order.
    - SubmissionSpec: every event of the component is a stutter or a spec
      step. The one exception, a submission made from [Succeeded], is
      shown to be reachable.

    ** Bounds and fuel

    Every function but one is structurally recursive: the matcher on
    the input string, split and trim on the string, [run] on the event
    list. The exception is the ECMA-262 loop of [split], which moves an
    index through the string: [split_loop] takes fuel, and [ecma_split]
    gives it the length of the string plus one. This is enough because
    each iteration passes a separator ([split_loop_iterations] counts
    them exactly). The [limit] of [split] is a 32-bit unsigned integer,
    kept as [N] and reduced modulo 2^32 as [ToUint32] does. Termination
    of the component is the progress theorem [in_flight_completes]: a
    pending timer can always fire.

    ** Not modelled

    - The JavaScript built-ins the code calls ([String.prototype.split]
      and [trim], [Array.prototype.map] and [every],
      [RegExp.prototype.test]) are not code of the repository. They are
      modelled from ECMA-262 in [JsString], [EcmaSplit] and [Regex], and
      the manifest maps only the code that calls them. The same holds
      for the browser's value sanitisation, stated from the HTML
      standard in [HtmlInput]. The model does
      not require code units to be below 2^16: the theorems hold for
      every sequence of units, so for the strings of the code too.
    - The 1500 ms delay: it is only the [Resolve] event.
    - [e.preventDefault()] and [console.error].
    - Rendering, of the page, the output panel ([./InvitationOutput],
      which is not among the sources) and the toasts. The model keeps
      only the list of toast messages.
    - The real HTTP backend. Only the mock is called. The
      [InvitationBackend] class states the theorems for any backend.
    - The label and the CSS class of the submit button (lines 256-262):
      presentation computed from [isSubmitting], whose meaning
      [submitting_iff_in_flight] already gives.
    - Change events carry the property ([field]) rather than the
      control: [control_change_typed] shows that the two agree for every
      control of the page. *)

From stdpp Require Export base list strings decidable sets.
From Stdlib Require Export Ascii NArith.

Declare Scope celebrify_scope.
Delimit Scope celebrify_scope with celebrify.

(** ** Results: a value or a typed error *)

Inductive result (A E : Type) : Type :=
| Ok (a : A)
| Err (e : E).
Arguments Ok {A E} a.
Arguments Err {A E} e.

Definition result_bind {A B E} (r : result A E) (k : A -> result B E)
  : result B E :=
  match r with
  | Ok a => k a
  | Err e => Err e
  end.

Notation "x <- r ;; k" := (result_bind r (fun x => k))
  (at level 60, r at next level, right associativity) : celebrify_scope.

Create HintDb celebrify.
Create Rewrite HintDb celebrify_rw.

(** ** Tactics shared by the development *)

Ltac invc H := inversion H; subst; clear H.

(** Turns the boolean tests of the code into propositions. *)
Ltac bool_to_prop :=
  repeat match goal with
  | H : (_ && _)%bool = true |- _ => apply andb_prop in H as [? ?]
  | H : negb _ = true |- _ => apply negb_true_iff in H
  | H : bool_decide _ = true |- _ => apply bool_decide_eq_true_1 in H
  | H : bool_decide _ = false |- _ => apply bool_decide_eq_false_1 in H
  end.

(** Closes a decidable proposition about concrete data by evaluation. *)
Ltac decide_concrete := apply (bool_decide_unpack _); vm_compute; exact I.

(** Discharges the hypotheses of a theorem applied at concrete data. *)
Ltac solve_concrete :=
  repeat first [ reflexivity | progress simpl | constructor | decide_concrete ].

(** ** Generic lemmas *)

Lemma result_bind_Ok {A B E} (r : result A E) (k : A -> result B E) b :
  result_bind r k = Ok b <-> exists a, r = Ok a /\ k a = Ok b.
Proof. destruct r; simpl; split; intros H; naive_solver. Qed.

Lemma forallb_Forall_iff {A} (p : A -> bool) (l : list A) :
  forallb p l = true <-> Forall (fun x => p x = true) l.
Proof. rewrite forallb_forall, List.Forall_forall. reflexivity. Qed.

Lemma forallb_false_exists {A} (p : A -> bool) (l : list A) :
  forallb p l = false <-> exists x, In x l /\ p x = false.
Proof.
  induction l as [|a l IH]; simpl; [split; [done|naive_solver]|].
  rewrite andb_false_iff, IH. split; [naive_solver|].
  intros (x & [<-|Hin] & Hx); auto. right; eauto.
Qed.

(** ** JavaScript strings

    A JavaScript string is a sequence of UTF-16 code units, unsigned
    16-bit integers. The model keeps a code unit as [N] (the code's
    strings only hold units below 2^16) and a string as a list of them,
    so that the list library applies to concatenation and slicing. [cu]
    gives the code unit of a character literal and [js] turns a Rocq
    string literal into a JavaScript string. *)

Abbreviation code_unit := N.

Definition cu (c : ascii) : code_unit := N_of_ascii c.

Abbreviation jsstring := (list code_unit).

Fixpoint js (s : string) : jsstring :=
  match s with
  | EmptyString => []
  | String a s' => cu a :: js s'
  end.

Lemma js_app (s1 s2 : string) : js (s1 ++ s2) = js s1 ++ js s2.
Proof. induction s1 as [|a s1 IH]; [done|]. exact (f_equal (cons (cu a)) IH). Qed.

#[export] Hint Rewrite js_app : celebrify_rw.
#[export] Hint Resolve Forall_nil_2 Forall_cons_2 : celebrify.

Lemma elem_of_rev {A} (x : A) (l : list A) : x ∈ rev l <-> x ∈ l.
Proof. rewrite !list_elem_of_In. symmetry. apply in_rev. Qed.

Lemma filter_all_true {A} (f : A -> bool) (l : list A) :
  Forall (fun x => f x = true) l -> List.filter f l = l.
Proof. induction 1 as [|x l Hx _ IH]; simpl; [done|]. by rewrite Hx, IH. Qed.

Lemma filter_nil_none {A} (f : A -> bool) (l : list A) :
  List.filter f l = [] -> Forall (fun x => f x = false) l.
Proof.
  induction l as [|x l IH]; simpl; [constructor|].
  destruct (f x) eqn:Hx; [done|]. intros H. constructor; auto.
Qed.

Lemma filter_all_false {A} (f : A -> bool) (l : list A) :
  Forall (fun x => f x = false) l -> List.filter f l = [].
Proof. induction 1 as [|x l Hx _ IH]; simpl; [done|]. by rewrite Hx. Qed.

(** [x] occurs as a contiguous part of [l]. *)
Definition infix_of {A} (x l : list A) : Prop := exists k1 k2, l = k1 ++ x ++ k2.

Lemma infix_of_here {A} (x l : list A) : infix_of x (x ++ l).
Proof. by exists [], l. Qed.

Lemma infix_of_app_r {A} (x k l : list A) : infix_of x l -> infix_of x (k ++ l).
Proof. intros (k1 & k2 & ->). exists (k ++ k1), k2. by rewrite app_assoc. Qed.

#[export] Hint Resolve infix_of_here infix_of_app_r : celebrify.
