(* ===== verification/JsString.v ===== *)
(** * JavaScript string primitives used by the guest-list validation

    [CreateInvitation.tsx] line 71 calls [String.prototype.split] with a comma on
    the raw guest list and [String.prototype.trim()] on every segment.
    This file models the two primitives on code-unit lists (see
    [Prelude]), following ECMA-262: [trim] removes the leading and
    trailing code units of the WhiteSpace and LineTerminator sets
    ([js_space_units] and the range U+2000 to U+200A), and
    [split] with a one-unit separator returns the maximal separator-free
    segments, one more than the separators, empty ones included
    (splitting the empty string gives one empty segment). [js_join] is [Array.prototype.join]. *)

From S2P Require Import Prelude.

(** ** Whitespace *)

(** The code units of WhiteSpace and LineTerminator (ECMA-262, sections
    12.2 and 12.3): TAB, LF, VT, FF, CR, SPACE, NO-BREAK SPACE, the other
    space separators of Unicode category Zs (U+1680, U+2000 to U+200A,
    U+202F, U+205F, U+3000), LINE SEPARATOR, PARAGRAPH SEPARATOR and the
    byte order mark U+FEFF. [trim] removes these, and the class escape
    for whitespace of a regular expression matches them. *)
Definition js_space_units : list code_unit :=
  [9; 10; 11; 12; 13; 32; 160; 5760; 8232; 8233; 8239; 8287; 12288; 65279]%N.

Definition is_js_space (c : code_unit) : bool :=
  bool_decide (c ∈ js_space_units) || bool_decide (8192 <= c <= 8202)%N.

Fixpoint trim_start (s : jsstring) : jsstring :=
  match s with
  | [] => []
  | c :: s' => if is_js_space c then trim_start s' else s
  end.

Definition trim_end (s : jsstring) : jsstring := rev (trim_start (rev s)).

(** [String.prototype.trim]. *)
Definition js_trim (s : jsstring) : jsstring := trim_end (trim_start s).

Definition js_spaces (s : jsstring) : Prop := Forall (fun c => is_js_space c = true) s.
Definition no_js_space (s : jsstring) : Prop := Forall (fun c => is_js_space c = false) s.

Lemma trim_start_spaces (p e : jsstring) :
  js_spaces p -> trim_start (p ++ e) = trim_start e.
Proof. induction 1 as [|c p Hc _ IH]; simpl; [done|]. by rewrite Hc. Qed.

Lemma trim_start_all_spaces (p : jsstring) : js_spaces p -> trim_start p = [].
Proof. intros Hp. rewrite <-(app_nil_r p). by rewrite trim_start_spaces. Qed.

Lemma trim_start_nonspace_head (c : code_unit) (e : jsstring) :
  is_js_space c = false -> trim_start (c :: e) = c :: e.
Proof. simpl. by intros ->. Qed.

Lemma trim_start_no_space_app (e q : jsstring) :
  e <> [] -> no_js_space e -> trim_start (e ++ q) = e ++ q.
Proof.
  destruct e as [|c e]; intros Hne He; [done|].
  apply Forall_cons in He as [Hc _]. by apply trim_start_nonspace_head.
Qed.

Lemma js_spaces_rev (p : jsstring) : js_spaces p -> js_spaces (rev p).
Proof. intros Hp. by apply Forall_rev. Qed.

Lemma no_js_space_rev (p : jsstring) : no_js_space p -> no_js_space (rev p).
Proof. intros Hp. by apply Forall_rev. Qed.

(** Trimming a padded segment gives back the segment, when the segment
    has no whitespace of its own. *)
Lemma js_trim_padded (p e q : jsstring) :
  js_spaces p -> js_spaces q -> no_js_space e ->
  js_trim (p ++ e ++ q) = e.
Proof.
  intros Hp Hq He. unfold js_trim, trim_end.
  rewrite trim_start_spaces by done.
  destruct (decide (e = [])) as [->|Hne].
  - simpl. by rewrite (trim_start_all_spaces q).
  - rewrite trim_start_no_space_app by done.
    rewrite rev_app_distr, trim_start_spaces by by apply js_spaces_rev.
    rewrite <-(app_nil_r (rev e)) at 1.
    rewrite trim_start_no_space_app, app_nil_r, rev_involutive; [done| |].
    + by intros ?%(f_equal (@rev code_unit)); rewrite rev_involutive in *.
    + by apply no_js_space_rev.
Qed.

Lemma js_trim_no_space (e : jsstring) : no_js_space e -> js_trim e = e.
Proof.
  intros He. rewrite <-(app_nil_l e), <-(app_nil_r e) at 1.
  apply js_trim_padded; by try constructor.
Qed.

#[export] Hint Resolve js_spaces_rev no_js_space_rev : celebrify.

(** ** Splitting on a one-unit separator, and joining *)

Section Split.
Context (sep : code_unit).

(** [String.prototype.split(sep)] for a separator of length one. *)
Fixpoint js_split (s : jsstring) : list jsstring :=
  match s with
  | [] => [[]]
  | c :: s' =>
      let parts := js_split s' in
      if bool_decide (c = sep) then [] :: parts
      else match parts with
           | p :: ps => (c :: p) :: ps
           | [] => [[c]]
           end
  end.

(** [Array.prototype.join(sep)]. *)
Fixpoint js_join (parts : list jsstring) : jsstring :=
  match parts with
  | [] => []
  | [p] => p
  | p :: ps => p ++ sep :: js_join ps
  end.

(** The number of separators in a string. *)
Definition sep_count (s : jsstring) : nat := length (List.filter (fun c => bool_decide (c = sep)) s).

Lemma js_split_cons_ne (s : jsstring) : exists p ps, js_split s = p :: ps.
Proof.
  induction s as [|c s (p & ps & IH)]; simpl; [by eauto|].
  rewrite IH. case_bool_decide; eauto.
Qed.

Lemma length_js_split (s : jsstring) : length (js_split s) = S (sep_count s).
Proof.
  unfold sep_count. induction s as [|c s IH]; [done|]. simpl.
  destruct (js_split_cons_ne s) as (p & ps & Hs). rewrite Hs in IH |- *.
  simpl in IH. case_bool_decide; simpl; lia.
Qed.

Lemma sep_count_app_sep (p s : jsstring) :
  sep ∉ p -> sep_count (p ++ sep :: s) = S (sep_count s).
Proof.
  unfold sep_count. intros Hp. rewrite List.filter_app, length_app.
  rewrite filter_all_false; [simpl; by rewrite bool_decide_true|].
  apply Forall_forall. intros c Hc. apply bool_decide_eq_false_2. set_solver.
Qed.

Lemma sep_count_no_sep (p : jsstring) : sep ∉ p -> sep_count p = 0.
Proof.
  unfold sep_count. intros Hp. rewrite filter_all_false; [done|].
  apply Forall_forall. intros c Hc. apply bool_decide_eq_false_2. set_solver.
Qed.

Lemma js_join_split (s : jsstring) : js_join (js_split s) = s.
Proof.
  induction s as [|c s IH]; [done|]. simpl.
  destruct (js_split_cons_ne s) as (p & ps & Hs). rewrite Hs in IH |- *.
  case_bool_decide as Hc; simpl.
  - rewrite Hc. by destruct ps; simpl in *; rewrite IH.
  - destruct ps; simpl in *; by rewrite IH.
Qed.

Lemma js_split_no_sep (s : jsstring) : Forall (fun p => sep ∉ p) (js_split s).
Proof.
  induction s as [|c s IH]; simpl; [repeat constructor; set_solver|].
  destruct (js_split_cons_ne s) as (p & ps & Hs). rewrite Hs in IH |- *.
  apply Forall_cons in IH as [Hp Hps].
  case_bool_decide; repeat constructor; auto; set_solver.
Qed.

Lemma js_split_app_sep (p s : jsstring) :
  sep ∉ p -> js_split (p ++ sep :: s) = p :: js_split s.
Proof.
  induction p as [|c p IH]; intros Hp; simpl; [by rewrite bool_decide_true|].
  rewrite IH by set_solver. rewrite bool_decide_false by set_solver. done.
Qed.

Lemma js_split_no_sep_single (p : jsstring) : sep ∉ p -> js_split p = [p].
Proof.
  induction p as [|c p IH]; intros Hp; [done|]. simpl.
  rewrite IH by set_solver. rewrite bool_decide_false by set_solver. done.
Qed.

Lemma js_split_join (parts : list jsstring) :
  parts <> [] -> Forall (fun p => sep ∉ p) parts ->
  js_split (js_join parts) = parts.
Proof.
  induction parts as [|p [|q ps] IH]; intros Hne Hall; [done| |].
  - apply Forall_cons in Hall as [Hp _]. by apply js_split_no_sep_single.
  - apply Forall_cons in Hall as [Hp Hps]. simpl.
    rewrite js_split_app_sep by done. f_equal. by apply IH.
Qed.
End Split.

(** ** What trimming keeps *)

Lemma elem_of_trim_start (c : code_unit) (s : jsstring) : c ∈ trim_start s -> c ∈ s.
Proof.
  induction s as [|d s IH]; simpl; [done|].
  destruct (is_js_space d); [set_solver|done].
Qed.

Lemma elem_of_js_trim (c : code_unit) (s : jsstring) : c ∈ js_trim s -> c ∈ s.
Proof.
  unfold js_trim, trim_end. rewrite elem_of_rev.
  by intros ?%elem_of_trim_start%elem_of_rev%elem_of_trim_start.
Qed.

Lemma js_trim_spaces (s : jsstring) : js_spaces s -> js_trim s = [].
Proof.
  intros Hs. unfold js_trim, trim_end. by rewrite (trim_start_all_spaces s).
Qed.

Lemma js_spaces_not_elem (c : code_unit) (s : jsstring) :
  is_js_space c = false -> js_spaces s -> c ∉ s.
Proof. intros Hc Hs Hin. unfold js_spaces in Hs. rewrite Forall_forall in Hs. by rewrite Hs in Hc. Qed.
