(* ===== verification/HtmlInput.v ===== *)
(** * The values the browser gives the form's controls

    The form of [CreateInvitation.tsx] uses [<input type="text">],
    [<input type="date">], [<input type="time">], a [<select>] and a
    [<textarea>]. A change event carries the control's [value], which the
    browser has already sanitised as the HTML standard prescribes (section
    4.10.5, the value sanitization algorithm of each input type):
    - a text input strips line feeds and carriage returns;
    - a date input holds the empty string or a valid date string
      [YYYY-MM-DD] (four or more digits of a positive year, a month from
      01 to 12, a day that exists in that month, leap years included);
    - a time input holds the empty string or a valid time string
      [HH:MM], optionally followed by seconds and a fraction of one to
      three digits.
    This is the platform's behaviour, not code of the repository, so the
    manifest does not map it; [FormModel] uses it to state which values a
    control of the form can carry. *)

From S2P Require Import Prelude JsString.

(** ** Digits *)

Definition is_digit (c : code_unit) : bool := bool_decide (48 <= c <= 57)%N.

(** The number a string of decimal digits denotes. *)
Definition digits_value (s : jsstring) : N :=
  fold_left (fun acc c => acc * 10 + (c - 48))%N s 0%N.

Definition all_digits (s : jsstring) : bool := bool_decide (s <> []) && forallb is_digit s.

(** ** Dates *)

Definition leap_year (y : N) : bool :=
  (y mod 400 =? 0)%N || ((y mod 4 =? 0)%N && negb (y mod 100 =? 0)%N).

Definition days_in_month (y m : N) : N :=
  if (m =? 2)%N then (if leap_year y then 29 else 28)%N
  else if bool_decide (m ∈ [4; 6; 9; 11]%N) then 30%N
  else 31%N.

(** A valid date string: year, month and day separated by hyphens. *)
Definition valid_date_string (s : jsstring) : bool :=
  match js_split (cu "-") s with
  | [y; m; d] =>
      all_digits y && bool_decide (4 <= length y) &&
      all_digits m && bool_decide (length m = 2) &&
      all_digits d && bool_decide (length d = 2) &&
      let '(yv, mv, dv) := (digits_value y, digits_value m, digits_value d) in
      bool_decide (0 < yv)%N && bool_decide (1 <= mv <= 12)%N &&
      bool_decide (1 <= dv <= days_in_month yv mv)%N
  | _ => false
  end.

(** ** Times *)

Definition two_digits_below (bound : N) (s : jsstring) : bool :=
  all_digits s && bool_decide (length s = 2) && bool_decide (digits_value s < bound)%N.

(** Seconds, with an optional fraction of one to three digits. *)
Definition valid_seconds (s : jsstring) : bool :=
  match js_split (cu ".") s with
  | [sec] => two_digits_below 60 sec
  | [sec; frac] =>
      two_digits_below 60 sec && all_digits frac && bool_decide (length frac <= 3)
  | _ => false
  end.

(** A valid time string: hours and minutes, optionally seconds. *)
Definition valid_time_string (s : jsstring) : bool :=
  match js_split (cu ":") s with
  | [h; m] => two_digits_below 24 h && two_digits_below 60 m
  | [h; m; sec] => two_digits_below 24 h && two_digits_below 60 m && valid_seconds sec
  | _ => false
  end.

(** ** Text *)

Definition no_line_break (s : jsstring) : bool :=
  forallb (fun c => negb (bool_decide (c = 10%N)) && negb (bool_decide (c = 13%N))) s.

(** ** Lemmas *)

Lemma valid_date_string_nonempty (s : jsstring) : valid_date_string s = true -> s <> [].
Proof. intros H ->. discriminate H. Qed.

Lemma valid_time_string_nonempty (s : jsstring) : valid_time_string s = true -> s <> [].
Proof. intros H ->. discriminate H. Qed.

Example valid_date_examples :
  valid_date_string (js "2025-06-01") = true /\ valid_date_string (js "2024-02-29") = true /\
  valid_date_string (js "2025-02-29") = false /\ valid_date_string (js "2025-13-01") = false /\
  valid_date_string (js "25-06-01") = false.
Proof. vm_compute. repeat split. Qed.

Example valid_time_examples :
  valid_time_string (js "18:00") = true /\ valid_time_string (js "18:00:30.5") = true /\
  valid_time_string (js "24:00") = false /\ valid_time_string (js "18:60") = false.
Proof. vm_compute. repeat split. Qed.
