(* ===== verification/Regex.v ===== *)
(** * JavaScript regular expressions of the shape the code uses

    The guest-list check of [CreateInvitation.tsx] (line 73) calls
    [RegExp.prototype.test] with the e-mail pattern quoted in [EmailValidator]. This
    file models the regular-expression fragment that pattern is written
    in: literal code units (the at sign, the escaped full stop), character classes with
    items and the whitespace escape, possibly negated, concatenation,
    alternation, [*] and [+] (desugared as [r r*], which is how ECMA-262
    defines the [{1,}] quantifier), and the [^]/[$] anchors of a pattern
    without flags.

    Without back-references or look-arounds, the backtracking matcher of
    ECMA-262 finds a match at a position exactly when some substring
    starting there lies in the language of the body, so [test] is a
    search over start and end positions of a language-membership test.
    The language is the inductive relation [matches]; the executable
    test is the Brzozowski-derivative matcher [accepts], proved equal to
    [matches] by [accepts_correct]. *)

From S2P Require Import Prelude JsString.

(** ** Syntax *)

Inductive class_item :=
| ClassChar (c : code_unit)
| ClassSpace.

Inductive regex :=
| RVoid
| REps
| RChar (c : code_unit)
| RClass (negated : bool) (items : list class_item)
| RCat (r1 r2 : regex)
| RAlt (r1 r2 : regex)
| RStar (r : regex).

Definition RPlus (r : regex) : regex := RCat r (RStar r).

(** A pattern literal [/^body$/]: the two anchors and the body. *)
Record pattern := Pattern {
  pat_start_anchor : bool;
  pat_body : regex;
  pat_end_anchor : bool
}.

Definition class_item_matches (i : class_item) (c : code_unit) : bool :=
  match i with
  | ClassChar d => bool_decide (c = d)
  | ClassSpace => is_js_space c
  end.

Definition class_matches (negated : bool) (items : list class_item)
  (c : code_unit) : bool :=
  xorb negated (existsb (fun i => class_item_matches i c) items).

(** ** Language semantics *)

Inductive matches : regex -> jsstring -> Prop :=
| MEps : matches REps []
| MChar c : matches (RChar c) [c]
| MClass neg items c :
    class_matches neg items c = true -> matches (RClass neg items) [c]
| MCat r1 r2 w1 w2 :
    matches r1 w1 -> matches r2 w2 -> matches (RCat r1 r2) (w1 ++ w2)
| MAltL r1 r2 w : matches r1 w -> matches (RAlt r1 r2) w
| MAltR r1 r2 w : matches r2 w -> matches (RAlt r1 r2) w
| MStarNil r : matches (RStar r) []
| MStarApp r w1 w2 :
    matches r w1 -> matches (RStar r) w2 -> matches (RStar r) (w1 ++ w2).

#[export] Hint Constructors matches : celebrify.

(** ** The derivative matcher *)

Fixpoint nullable (r : regex) : bool :=
  match r with
  | RVoid | RChar _ | RClass _ _ => false
  | REps | RStar _ => true
  | RCat r1 r2 => nullable r1 && nullable r2
  | RAlt r1 r2 => nullable r1 || nullable r2
  end.

Fixpoint deriv (a : code_unit) (r : regex) : regex :=
  match r with
  | RVoid | REps => RVoid
  | RChar c => if bool_decide (a = c) then REps else RVoid
  | RClass neg items => if class_matches neg items a then REps else RVoid
  | RCat r1 r2 =>
      if nullable r1 then RAlt (RCat (deriv a r1) r2) (deriv a r2)
      else RCat (deriv a r1) r2
  | RAlt r1 r2 => RAlt (deriv a r1) (deriv a r2)
  | RStar r1 => RCat (deriv a r1) (RStar r1)
  end.

Fixpoint accepts (r : regex) (w : jsstring) : bool :=
  match w with
  | [] => nullable r
  | a :: w' => accepts (deriv a r) w'
  end.

(** [RegExp.prototype.test]: some substring, starting at offset 0 when the
    pattern starts with [^] and ending at the end when it ends with [$],
    is in the language of the body. *)
Definition regex_test (p : pattern) (s : jsstring) : bool :=
  let starts := if pat_start_anchor p then [0] else seq 0 (S (length s)) in
  existsb (fun i =>
    let rest := drop i s in
    let lens := if pat_end_anchor p then [length rest]
                else seq 0 (S (length rest)) in
    existsb (fun j => accepts (pat_body p) (take j rest)) lens) starts.

(** ** Correctness of the derivative matcher *)

Lemma nullable_correct (r : regex) : nullable r = true <-> matches r [].
Proof.
  split.
  - induction r; simpl; intros H; try discriminate; eauto with celebrify.
    + apply andb_prop in H as [H1 H2]. apply (MCat _ _ [] []); auto.
    + apply orb_true_iff in H as [H|H]; eauto with celebrify.
  - remember [] as w eqn:Hw. induction 1; simpl; try done.
    + apply app_eq_nil in Hw as [-> ->]. rewrite IHmatches1, IHmatches2; done.
    + by rewrite IHmatches.
    + by rewrite IHmatches, orb_true_r.
Qed.

Lemma matches_star_cons (r : regex) (a : code_unit) (w : jsstring) :
  matches (RStar r) (a :: w) ->
  exists w1 w2, w = w1 ++ w2 /\ matches r (a :: w1) /\ matches (RStar r) w2.
Proof.
  remember (RStar r) as re eqn:Hre. remember (a :: w) as aw eqn:Haw.
  intros Hm. revert w Haw.
  induction Hm as [| | | | | |r0|r0 u1 u2 Hu1 _ Hu2 IH2]; intros v Hv;
    try discriminate.
  invc Hre. destruct u1 as [|c u1]; simpl in Hv.
  - by apply IH2.
  - invc Hv. eauto.
Qed.

Lemma deriv_sound (a : code_unit) (r : regex) (w : jsstring) :
  matches (deriv a r) w -> matches r (a :: w).
Proof.
  revert w. induction r; intros w Hm; simpl in Hm.
  - invc Hm.
  - invc Hm.
  - case_bool_decide; subst; invc Hm; constructor.
  - destruct (class_matches _ _ _) eqn:Hc; invc Hm; by constructor.
  - destruct (nullable r1) eqn:Hn.
    + invc Hm.
      * invc H2. apply (MCat _ _ (a :: w1) w2); auto.
      * apply (MCat _ _ [] (a :: w)); [by apply nullable_correct|auto].
    + invc Hm. apply (MCat _ _ (a :: w1) w2); auto.
  - invc Hm; eauto with celebrify.
  - invc Hm. apply (MStarApp _ (a :: w1) w2); auto.
Qed.

Lemma deriv_complete (a : code_unit) (r : regex) (w : jsstring) :
  matches r (a :: w) -> matches (deriv a r) w.
Proof.
  revert w. induction r; intros w Hm; simpl.
  - invc Hm.
  - invc Hm.
  - invc Hm. rewrite bool_decide_true by done. constructor.
  - invc Hm. match goal with H : class_matches _ _ _ = true |- _ => rewrite H end.
    constructor.
  - invc Hm. destruct w1 as [|c w1]; simpl in *.
    + subst. assert (nullable r1 = true) as -> by by apply nullable_correct.
      apply MAltR. auto.
    + match goal with H : c :: _ = a :: _ |- _ => invc H end.
      destruct (nullable r1); [apply MAltL|]; constructor; auto.
  - invc Hm; eauto with celebrify.
  - apply matches_star_cons in Hm as (w1 & w2 & -> & H1 & H2).
    constructor; auto.
Qed.

(** The executable matcher decides the language semantics. *)
Theorem accepts_correct (r : regex) (w : jsstring) :
  accepts r w = true <-> matches r w.
Proof.
  revert r. induction w as [|a w IH]; intros r; simpl.
  - apply nullable_correct.
  - rewrite IH. split; [apply deriv_sound|apply deriv_complete].
Qed.

(** With both anchors, [test] is a whole-string match. *)
Lemma regex_test_anchored (r : regex) (s : jsstring) :
  regex_test (Pattern true r true) s = accepts r s.
Proof.
  unfold regex_test; simpl. rewrite drop_0, take_ge by done.
  by rewrite !orb_false_r.
Qed.

(** ** Inversion lemmas for the operators *)

Lemma matches_cat_iff (r1 r2 : regex) (w : jsstring) :
  matches (RCat r1 r2) w <->
  exists w1 w2, w = w1 ++ w2 /\ matches r1 w1 /\ matches r2 w2.
Proof.
  split; [intros Hm; invc Hm; eauto|].
  intros (w1 & w2 & -> & H1 & H2). by constructor.
Qed.

Lemma matches_char_iff (c : code_unit) (w : jsstring) :
  matches (RChar c) w <-> w = [c].
Proof. split; [by intros Hm; invc Hm|intros ->; constructor]. Qed.

Lemma matches_class_iff (neg : bool) (items : list class_item) (w : jsstring) :
  matches (RClass neg items) w <->
  exists c, w = [c] /\ class_matches neg items c = true.
Proof.
  split; [intros Hm; invc Hm; eauto|].
  intros (c & -> & Hc). by constructor.
Qed.

Lemma matches_star_class (neg : bool) (items : list class_item) (w : jsstring) :
  matches (RStar (RClass neg items)) w <->
  Forall (fun c => class_matches neg items c = true) w.
Proof.
  split.
  - remember (RStar (RClass neg items)) as re eqn:Hre.
    induction 1 as [| | | | | |r0|r0 u1 u2 Hu1 _ Hu2 IH2]; try discriminate.
    + constructor.
    + invc Hre. apply matches_class_iff in Hu1 as (c & -> & Hc).
      constructor; auto.
  - induction 1 as [|c w Hc _ IH]; [constructor|].
    apply (MStarApp _ [c] w); auto with celebrify.
Qed.

Lemma matches_plus_class (neg : bool) (items : list class_item) (w : jsstring) :
  matches (RPlus (RClass neg items)) w <->
  w <> [] /\ Forall (fun c => class_matches neg items c = true) w.
Proof.
  unfold RPlus. rewrite matches_cat_iff. split.
  - intros (w1 & w2 & -> & H1 & H2).
    apply matches_class_iff in H1 as (c & -> & Hc).
    apply matches_star_class in H2. split; [done|by constructor].
  - intros [Hne Hall]. destruct w as [|c w]; [done|].
    apply Forall_cons in Hall as [Hc Hw].
    exists [c], w. split; [done|]. split; [by constructor|].
    by apply matches_star_class.
Qed.

(** ** [test] as a search *)

(** The search [test] performs: a split of the input around a word of
    the body's language, with nothing before it when the pattern starts
    with [^] and nothing after it when it ends with [$]. *)
Definition found_in (p : pattern) (s : jsstring) : Prop :=
  exists pre w post, s = pre ++ w ++ post /\ matches (pat_body p) w /\
    (pat_start_anchor p = true -> pre = []) /\ (pat_end_anchor p = true -> post = []).

Lemma in_anchor_positions (anchored : bool) (a n i : nat) :
  In i (if anchored then [a] else seq 0 (S n)) <-> (if anchored then i = a else i <= n).
Proof. destruct anchored; simpl; [naive_solver|rewrite in_seq; lia]. Qed.

(** [RegExp.prototype.test] is true exactly when the input contains a
    word of the pattern's language at a place its anchors allow: the
    search over start and end offsets decides [found_in]. *)
Theorem regex_test_found (p : pattern) (s : jsstring) :
  regex_test p s = true <-> found_in p s.
Proof.
  destruct p as [sa r ea]. unfold regex_test, found_in; simpl.
  rewrite existsb_exists. setoid_rewrite existsb_exists.
  setoid_rewrite accepts_correct.
  setoid_rewrite in_anchor_positions.
  split.
  - intros (i & Hi & j & Hj & Hm). exists (take i s), (take j (drop i s)), (drop j (drop i s)).
    rewrite !take_drop. split_and!; [done|done| |].
    + destruct sa; [subst; by rewrite take_0|done].
    + destruct ea; [subst; by rewrite drop_all|done].
  - intros (pre & w & post & -> & Hm & Hsa & Hea). exists (length pre).
    split; [destruct sa; [by rewrite Hsa|rewrite !length_app; lia]|].
    rewrite drop_app_length. exists (length w).
    rewrite take_app_length. split; [|done].
    destruct ea; [by rewrite Hea, app_nil_r|rewrite length_app; lia].
Qed.
