(* ===== verification/EmailValidator.v ===== *)
(** * Guest-list validation (CreateInvitation.tsx, lines 70-79)

    [handleSubmit] splits [formData.guestList] on the comma, trims every
    segment (line 71) and accepts the list only when [every] segment
    passes the [test] method of the e-mail pattern (lines 72-74); otherwise it
    shows an error toast and returns (lines 76-79). This file holds:
    - the pattern as a [Regex.pattern] and the three steps of the code;
    - [address_ok], a structural reference check (exactly one [@], a
      non-empty local part, a domain with a [.] strictly inside it, no
      whitespace), and the theorem that the pattern decides it;
    - the properties of the whole validation: what it accepts, the round
      trip from a list of addresses, and its rejections;
    - the spec's validator (section 4.1 of the spec: empty segments
      dropped, every offender reported) as [spec_validate], and how the
      code relates to it. *)

From S2P Require Import Prelude JsString Regex.

(** ** The code *)

(** The negated class of whitespace and the at sign, written
    with a caret, the whitespace escape and an at sign in brackets. *)
Definition not_space_or_at : regex :=
  RClass true [ClassSpace; ClassChar (cu "@")].

(** The pattern of line 73: anchored at both ends, one or more units of
    the negated class, an at sign, one or more units, a full stop (escaped
    in the source) and one or more units. *)
Definition email_pattern : pattern :=
  Pattern true
    (RCat (RPlus not_space_or_at)
      (RCat (RChar (cu "@"))
        (RCat (RPlus not_space_or_at)
          (RCat (RChar (cu ".")) (RPlus not_space_or_at)))))
    true.

(** The arrow function passed to [every] (line 73). *)
Definition email_test (email : jsstring) : bool := regex_test email_pattern email.

(** [formData.guestList.split] on a comma, then [map] with [trim] (line 71). *)
Definition guest_emails (guestList : jsstring) : list jsstring :=
  map js_trim (js_split (cu ",") guestList).

(** [emails.every(...)] (lines 72-74). *)
Definition validEmails (emails : list jsstring) : bool := forallb email_test emails.

(** Lines 70-79: the trimmed segments when all pass, [None] when the
    handler takes the error branch. *)
Definition validate_guest_list (guestList : jsstring) : option (list jsstring) :=
  let emails := guest_emails guestList in
  if validEmails emails then Some emails else None.

(** ** A structural reference for the pattern *)

Definition atom_char (c : code_unit) : bool :=
  negb (is_js_space c) && negb (bool_decide (c = (cu "@"))).

Fixpoint dot_before_last (t : jsstring) : bool :=
  match t with
  | [] => false
  | c :: t' => (bool_decide (c = (cu ".")) && negb (bool_decide (t' = [])))
               || dot_before_last t'
  end.

(** A [.] that is neither the first nor the last code unit. *)
Definition dot_inside (d : jsstring) : bool :=
  match d with
  | [] => false
  | _ :: t => dot_before_last t
  end.

Definition address_ok (e : jsstring) : bool :=
  match js_split (cu "@") e with
  | [local; domain] =>
      negb (bool_decide (local = [])) && forallb atom_char local &&
      forallb atom_char domain && dot_inside domain
  | _ => false
  end.

(** The shape the pattern describes, as a proposition. *)
Definition email_shape (e : jsstring) : Prop :=
  exists l d1 d2, e = l ++ (cu "@") :: d1 ++ (cu ".") :: d2 /\
    l <> [] /\ d1 <> [] /\ d2 <> [] /\
    Forall (fun c => atom_char c = true) (l ++ d1 ++ (cu ".") :: d2).

(** ** The pattern decides the structural check *)

Lemma class_not_space_or_at (c : code_unit) :
  class_matches true [ClassSpace; ClassChar (cu "@")] c = atom_char c.
Proof.
  unfold class_matches, atom_char; simpl.
  by destruct (is_js_space c), (bool_decide _).
Qed.

Lemma matches_atoms (w : jsstring) :
  matches (RPlus not_space_or_at) w <->
  w <> [] /\ Forall (fun c => atom_char c = true) w.
Proof.
  unfold not_space_or_at. rewrite matches_plus_class.
  split; intros [Hne Hall]; split; auto;
    (eapply Forall_impl; [exact Hall|]); intros c Hc; cbv beta in *;
    by rewrite class_not_space_or_at in *.
Qed.

Lemma atoms_no_at (w : jsstring) :
  Forall (fun c => atom_char c = true) w -> (cu "@") ∉ w.
Proof. intros Hall Hin. rewrite Forall_forall in Hall. by apply Hall in Hin. Qed.

Lemma email_pattern_shape (e : jsstring) :
  matches (pat_body email_pattern) e <-> email_shape e.
Proof.
  simpl. split.
  - intros Hm.
    apply matches_cat_iff in Hm as (l & r1 & -> & Hl & Hm).
    apply matches_cat_iff in Hm as (a & r2 & -> & ->%matches_char_iff & Hm).
    apply matches_cat_iff in Hm as (d1 & r3 & -> & Hd1 & Hm).
    apply matches_cat_iff in Hm as (dot & d2 & -> & ->%matches_char_iff & Hd2).
    apply matches_atoms in Hl as [Hl Fl], Hd1 as [Hd1 Fd1], Hd2 as [Hd2 Fd2].
    exists l, d1, d2. split; [done|]. do 3 (split; [done|]).
    repeat (apply Forall_app; split); auto.
  - intros (l & d1 & d2 & -> & Hl & Hd1 & Hd2 & Hall).
    apply Forall_app in Hall as [Fl Hall]. apply Forall_app in Hall as [Fd1 Fd2].
    apply Forall_cons in Fd2 as [_ Fd2].
    apply matches_cat_iff. exists l, ((cu "@") :: d1 ++ (cu ".") :: d2).
    split; [done|]. split; [by apply matches_atoms|].
    apply (MCat _ _ [(cu "@")]); [constructor|].
    apply matches_cat_iff. exists d1, ((cu ".") :: d2).
    split; [done|]. split; [by apply matches_atoms|].
    apply (MCat _ _ [(cu ".")]); [constructor|by apply matches_atoms].
Qed.

(** C: the regular expression of line 73 accepts exactly the strings made
    of a non-empty local part, an [@], and a domain with a [.] that is
    neither its first nor its last character, none of the three parts
    holding whitespace or an [@]. *)
Theorem email_test_shape (e : jsstring) : email_test e = true <-> email_shape e.
Proof.
  unfold email_test, email_pattern.
  rewrite regex_test_anchored, accepts_correct. apply email_pattern_shape.
Qed.

Lemma dot_before_last_iff (t : jsstring) :
  dot_before_last t = true <->
  exists t1 t2, t = t1 ++ (cu ".") :: t2 /\ t2 <> [].
Proof.
  induction t as [|c t IH]; simpl.
  - split; [done|]. intros (t1 & t2 & Ht & _). by destruct t1.
  - rewrite orb_true_iff, andb_true_iff, IH, negb_true_iff. split.
    + intros [[Hc Ht]|(t1 & t2 & -> & Ht2)]; bool_to_prop.
      * subst. by exists [], t.
      * by exists (c :: t1), t2.
    + intros (t1 & t2 & Heq & Ht2). destruct t1 as [|c' t1]; simpl in Heq; invc Heq.
      * left. split; [by apply bool_decide_eq_true_2|by apply bool_decide_eq_false_2].
      * right. eauto.
Qed.

Lemma dot_inside_iff (d : jsstring) :
  dot_inside d = true <->
  exists d1 d2, d = d1 ++ (cu ".") :: d2 /\ d1 <> [] /\ d2 <> [].
Proof.
  destruct d as [|x t]; simpl.
  - split; [done|]. intros (d1 & d2 & Hd & Hd1 & _). by destruct d1.
  - rewrite dot_before_last_iff. split.
    + intros (t1 & t2 & -> & Ht2). by exists (x :: t1), t2.
    + intros (d1 & d2 & Heq & Hd1 & Hd2). destruct d1 as [|y d1]; [done|].
      invc Heq. eauto.
Qed.

Lemma address_ok_shape (e : jsstring) : address_ok e = true <-> email_shape e.
Proof.
  unfold address_ok. split.
  - destruct (js_split (cu "@") e) as [|l [|d [|? ?]]] eqn:Hs; try done.
    intros H. bool_to_prop.
    apply dot_inside_iff in H0 as (d1 & d2 & -> & Hd1 & Hd2).
    exists l, d1, d2. split.
    + rewrite <-(js_join_split (cu "@") e), Hs. done.
    + do 3 (split; [done|]). apply Forall_app. by split; apply forallb_Forall_iff.
  - intros (l & d1 & d2 & -> & Hl & Hd1 & Hd2 & Hall).
    apply Forall_app in Hall as [Fl Fd].
    rewrite js_split_app_sep, js_split_no_sep_single by by apply atoms_no_at.
    rewrite bool_decide_false by done. simpl.
    rewrite !andb_true_iff, !forallb_Forall_iff, dot_inside_iff. eauto 10.
Qed.

(** The pattern decides the structural check. *)
Lemma email_test_address_ok (e : jsstring) : email_test e = address_ok e.
Proof.
  apply Bool.eq_true_iff_eq. unfold email_test, email_pattern.
  rewrite regex_test_anchored, accepts_correct, address_ok_shape.
  apply email_pattern_shape.
Qed.

(** ** Properties of the guest-list validation *)

Lemma address_ok_nil : address_ok [] = false.
Proof. reflexivity. Qed.

Lemma email_shape_no_space (e : jsstring) : email_shape e -> no_js_space e.
Proof.
  intros (l & d1 & d2 & -> & _ & _ & _ & Hall).
  apply Forall_app in Hall as [Fl Fd].
  apply Forall_app; split; [|constructor; [done|]];
    (eapply Forall_impl; [done|]); intros c Hc; cbv beta in *;
    unfold atom_char in Hc; bool_to_prop; by destruct (is_js_space c).
Qed.

Lemma validate_guest_list_Some (raw : jsstring) (es : list jsstring) :
  validate_guest_list raw = Some es <->
  es = guest_emails raw /\ Forall (fun e => address_ok e = true) es.
Proof.
  unfold validate_guest_list, validEmails.
  destruct (forallb email_test (guest_emails raw)) eqn:Hv; split; try naive_solver.
  - intros [= <-]. split; [done|]. apply forallb_Forall_iff in Hv.
    eapply Forall_impl; [done|]. intros e He; cbv beta in *. by rewrite <-email_test_address_ok.
  - intros [-> Hall]. exfalso. apply forallb_false_exists in Hv as (e & Hin & He).
    rewrite email_test_address_ok in He. rewrite List.Forall_forall in Hall.
    by rewrite Hall in He.
Qed.

Lemma guest_emails_nonempty (raw : jsstring) : guest_emails raw <> [].
Proof.
  destruct (js_split_cons_ne (cu ",") raw) as (p & ps & Hs).
  by unfold guest_emails; rewrite Hs.
Qed.

(** C: every address the validation lets through is a well-formed address
    without whitespace and without a comma, and the list is not empty. *)
Theorem validate_guest_list_sound (raw : jsstring) (es : list jsstring) :
  validate_guest_list raw = Some es ->
  es <> [] /\
  Forall (fun e => email_shape e /\ no_js_space e /\ (cu ",") ∉ e) es.
Proof.
  intros [Hes Hall]%validate_guest_list_Some. split.
  - rewrite Hes. apply guest_emails_nonempty.
  - rewrite Forall_forall. intros e He.
    rewrite Forall_forall in Hall. specialize (Hall e He).
    apply address_ok_shape in Hall. split; [done|]. split; [by apply email_shape_no_space|].
    rewrite Hes in He. unfold guest_emails in He.
    apply list_elem_of_fmap in He as (seg & -> & Hseg).
    pose proof (js_split_no_sep (cu ",") raw) as Hno. rewrite Forall_forall in Hno.
    intros ?%elem_of_js_trim. by apply (Hno seg).
Qed.

(** A guest list typed as addresses [e] surrounded by whitespace [p], [q]
    and separated by commas. *)
Definition padded (seg : jsstring * jsstring * jsstring) : jsstring :=
  let '(p, e, q) := seg in p ++ e ++ q.

Definition padded_ok (seg : jsstring * jsstring * jsstring) : Prop :=
  let '(p, e, q) := seg in
  js_spaces p /\ js_spaces q /\ address_ok e = true /\ (cu ",") ∉ e.

Lemma padded_no_comma (seg : jsstring * jsstring * jsstring) :
  padded_ok seg -> (cu ",") ∉ padded seg.
Proof.
  destruct seg as [[p e] q]; simpl. intros (Hp & Hq & _ & He).
  rewrite !elem_of_app. intros [Hin|[Hin|Hin]]; [| done |];
    revert Hin; by apply js_spaces_not_elem.
Qed.

Lemma guest_emails_join (segs : list (jsstring * jsstring * jsstring)) :
  segs <> [] -> Forall padded_ok segs ->
  guest_emails (js_join (cu ",") (map padded segs)) = map (fun s => s.1.2) segs.
Proof.
  intros Hne Hall. unfold guest_emails.
  rewrite js_split_join.
  - rewrite map_map. apply map_ext_in. intros [[p e] q] Hin.
    rewrite List.Forall_forall in Hall. destruct (Hall _ Hin) as (Hp & Hq & He & _).
    apply js_trim_padded; [done|done|].
    by apply email_shape_no_space, address_ok_shape.
  - by destruct segs.
  - apply List.Forall_map. eapply Forall_impl; [done|]. apply padded_no_comma.
Qed.

(** C: a comma-separated list of addresses, each surrounded by any
    whitespace, is accepted and gives back exactly the addresses, in
    order and trimmed. *)
Theorem validate_guest_list_join (segs : list (jsstring * jsstring * jsstring)) :
  segs <> [] -> Forall padded_ok segs ->
  validate_guest_list (js_join (cu ",") (map padded segs)) =
  Some (map (fun s => s.1.2) segs).
Proof.
  intros Hne Hall. apply validate_guest_list_Some.
  rewrite guest_emails_join by done. split; [done|].
  apply List.Forall_map. eapply Forall_impl; [done|].
  by intros [[p e] q] (_ & _ & He & _).
Qed.

Lemma validate_guest_list_reject (raw seg : jsstring) :
  In seg (js_split (cu ",") raw) -> address_ok (js_trim seg) = false ->
  validate_guest_list raw = None.
Proof.
  intros Hseg Hbad. unfold validate_guest_list, validEmails, guest_emails.
  destruct (forallb _ _) eqn:Hv; [exfalso|done].
  apply forallb_Forall_iff, List.Forall_map in Hv.
  rewrite List.Forall_forall in Hv. specialize (Hv _ Hseg). cbv beta in Hv.
  by rewrite email_test_address_ok, Hbad in Hv.
Qed.

(** C: the validation fails exactly when some segment, once trimmed, is
    not a well-formed address; the failure names no offender. *)
Theorem validate_guest_list_None (raw : jsstring) :
  validate_guest_list raw = None <->
  exists seg, In seg (js_split (cu ",") raw) /\ address_ok (js_trim seg) = false.
Proof.
  unfold validate_guest_list, validEmails, guest_emails.
  split; [|intros (seg & Hseg & Hbad); by apply (validate_guest_list_reject _ seg)].
  destruct (forallb _ _) eqn:Hv; [done|]. intros _.
  apply forallb_false_exists in Hv as (e & Hin & He).
  apply in_map_iff in Hin as (seg & <- & Hseg).
  rewrite email_test_address_ok in He. eauto.
Qed.

(** ** The spec's validator (spec section 4.1), and the code against it *)

Inductive ValidationError :=
| EmptyList
| MalformedAddress (offenders : list jsstring)
| UnknownEventType
| MissingField (name : jsstring).

(** [validate(raw)] of the spec: split on the comma, trim, drop the empty
    segments, fail with [EmptyList] when none is left, and report every
    segment that is not an address. The address grammar is the one of
    the code's pattern. *)
Definition spec_validate (raw : jsstring) : result (list jsstring) ValidationError :=
  let segs := List.filter (fun s => negb (bool_decide (s = []))) (guest_emails raw) in
  if bool_decide (segs = []) then Err EmptyList
  else match List.filter (fun e => negb (address_ok e)) segs with
       | [] => Ok segs
       | offenders => Err (MalformedAddress offenders)
       end.

(** Whatever the code accepts, the spec's validator accepts with the same
    list of addresses. *)
Lemma validate_refines_spec (raw : jsstring) (es : list jsstring) :
  validate_guest_list raw = Some es -> spec_validate raw = Ok es.
Proof.
  intros Hv. apply validate_guest_list_Some in Hv as [-> Hall].
  pose proof (guest_emails_nonempty raw) as Hne.
  unfold spec_validate. rewrite filter_all_true.
  - rewrite bool_decide_false by done.
    rewrite filter_all_false; [done|].
    eapply Forall_impl; [done|]. intros e He; cbv beta in *. by rewrite He.
  - eapply Forall_impl; [done|]. intros e He; cbv beta in *.
    apply negb_true_iff, bool_decide_eq_false_2. intros ->. by rewrite address_ok_nil in He.
Qed.

(** C: the code rejects every guest list with a blank segment, such as
    the one after a trailing comma, where the spec drops it. *)
Theorem validate_guest_list_blank_segment (raw seg : jsstring) :
  In seg (js_split (cu ",") raw) -> js_spaces seg -> validate_guest_list raw = None.
Proof.
  intros Hin Hs. apply (validate_guest_list_reject _ seg); [done|].
  by rewrite js_trim_spaces.
Qed.

(** C: the spec's validator accepts more than the code only through blank
    segments: when it accepts a list without one, the code accepts the
    same addresses. *)
Theorem spec_validate_Ok_code (raw : jsstring) (es : list jsstring) :
  spec_validate raw = Ok es ->
  validate_guest_list raw = Some es \/ [] ∈ guest_emails raw.
Proof.
  intros Hs. destruct (decide ([] ∈ guest_emails raw)) as [|Hnot]; [by right|left].
  revert Hs. unfold spec_validate. rewrite filter_all_true.
  2:{ rewrite Forall_forall. intros e He. apply negb_true_iff, bool_decide_eq_false_2.
      by intros ->. }
  case_bool_decide; [done|].
  destruct (List.filter _ _) eqn:Hoff; [|done]. intros [= <-].
  apply validate_guest_list_Some. split; [done|].
  apply filter_nil_none in Hoff. eapply Forall_impl; [done|].
  intros e He; cbv beta in *. by apply negb_false_iff.
Qed.

(** ** Witnesses and the examples of the spec *)

Lemma validate_guest_list_sound_witness :
  [js "a@x.com"; js "b@y.com"] <> [] /\
  Forall (fun e => email_shape e /\ no_js_space e /\ (cu ",") ∉ e)
    [js "a@x.com"; js "b@y.com"].
Proof. apply (validate_guest_list_sound (js "a@x.com, b@y.com")). vm_compute. reflexivity. Defined.

Lemma validate_guest_list_join_witness :
  validate_guest_list (js "a@x.com, b@y.com") = Some [js "a@x.com"; js "b@y.com"].
Proof.
  apply (validate_guest_list_join
           [([], js "a@x.com", []); ([(cu " ")], js "b@y.com", [])]);
    solve_concrete.
Defined.

Lemma validate_guest_list_blank_segment_witness :
  validate_guest_list (js "a@x.com,") = None.
Proof. apply (validate_guest_list_blank_segment _ []); [vm_compute; auto|constructor]. Defined.

Lemma spec_validate_Ok_code_witness :
  validate_guest_list (js "a@x.com,") = Some [js "a@x.com"] \/
  [] ∈ guest_emails (js "a@x.com,").
Proof. apply spec_validate_Ok_code. vm_compute. reflexivity. Defined.

(** Section 8 of the spec: the two guest lists it names. *)
Example spec_example_two_guests :
  validate_guest_list (js "a@x.com, b@y.com") = Some [js "a@x.com"; js "b@y.com"].
Proof. vm_compute. reflexivity. Qed.

Example spec_example_bad_guest :
  validate_guest_list (js "bad, b@y.com") = None /\
  spec_validate (js "bad, b@y.com") = Err (MalformedAddress [js "bad"]).
Proof. vm_compute. split; reflexivity. Qed.

(** The divergence on a trailing comma: the spec drops the empty segment,
    the code rejects the list. *)
Example trailing_comma_divergence :
  validate_guest_list (js "a@x.com,") = None /\
  spec_validate (js "a@x.com,") = Ok [js "a@x.com"].
Proof. vm_compute. split; reflexivity. Qed.

(** An address that the pattern accepts but that cannot be entered, since
    the comma splits it. *)
Example comma_address_unenterable :
  email_test (js "a,b@x.com") = true /\
  validate_guest_list (js "a,b@x.com") = None.
Proof. vm_compute. split; reflexivity. Qed.

(** C: the spec's validator reports every offender: when it fails with
    [MalformedAddress], every non-blank trimmed segment of the code's
    split that is not an address is among the offenders, and only those. *)
Theorem spec_validate_offenders (raw : jsstring) (off : list jsstring) :
  spec_validate raw = Err (MalformedAddress off) ->
  forall seg, In seg off <->
    In seg (guest_emails raw) /\ seg <> [] /\ address_ok seg = false.
Proof.
  unfold spec_validate. case_bool_decide; [done|].
  destruct (List.filter (fun e => negb (address_ok e)) _) as [|o os] eqn:Hoff; [done|].
  intros [= <-] seg.
  rewrite <-Hoff, !filter_In, negb_true_iff, negb_true_iff.
  split; [intros [[Hin Hne] Hbad]|intros (Hin & Hne & Hbad)]; bool_to_prop.
  - done.
  - repeat split; [done| |done]. by apply bool_decide_eq_false_2.
Qed.

Lemma spec_validate_offenders_witness :
  In (js "bad") [js "bad"] <->
  In (js "bad") (guest_emails (js "bad, b@y.com")) /\ js "bad" <> [] /\
  address_ok (js "bad") = false.
Proof.
  apply (spec_validate_offenders (js "bad, b@y.com") [js "bad"]).
  vm_compute. reflexivity.
Defined.

(** C: the list of guests the code sends has one address per segment of
    the field: one more than the commas it contains. *)
Theorem validate_guest_list_length (raw : jsstring) (es : list jsstring) :
  validate_guest_list raw = Some es -> length es = S (sep_count (cu ",") raw).
Proof.
  intros [-> _]%validate_guest_list_Some. unfold guest_emails.
  by rewrite length_map, length_js_split.
Qed.

Lemma validate_guest_list_length_witness :
  validate_guest_list (js "a@x.com, b@y.com") = Some [js "a@x.com"; js "b@y.com"] /\
  length [js "a@x.com"; js "b@y.com"] = S (sep_count (cu ",") (js "a@x.com, b@y.com")).
Proof.
  split; [vm_compute; reflexivity|].
  apply validate_guest_list_length. vm_compute. reflexivity.
Defined.
