(* ===== verification/EcmaSplit.v ===== *)
(** * [String.prototype.split] as ECMA-262 writes it

    [JsString.js_split] gives the segments of a string in one structural
    recursion. The call [formData.guestList.split(',')] of line 71 runs
    the algorithm of ECMA-262 (section 22.1.3.23) instead: it converts
    the [limit] argument with [ToUint32] (an absent limit is 2^32 - 1),
    returns no segment for a zero limit and one for an empty string, and
    otherwise scans the string with [StringIndexOf], pushing the segment
    before every separator and stopping as soon as the array holds
    [limit] segments; the rest of the string is the last segment.

    The scan is modelled as [split_loop], with fuel: every iteration
    moves the index past a separator, so the length of the string plus
    one is enough, and [ecma_split] supplies it. The lemmas show that
    this fuel is always enough and that the algorithm returns the first
    [limit] segments of [js_split]. With the absent limit of line 71
    (2^32 - 1) that is all of them for any realistic guest list, which
    justifies modelling the call with [js_split]. These are facts about
    the language's library, not about the repository's code. *)

From Stdlib Require Import NArith.
From S2P Require Import Prelude JsString.

(** ** The algorithm *)

(** [ToUint32(limit)], with [None] for an absent [limit]. *)
Definition split_limit (limit : option Z) : N :=
  match limit with
  | None => 4294967295%N
  | Some z => Z.to_N (z mod 4294967296)
  end.

(** [StringIndexOf(S, searchValue, fromIndex)] for a one-unit search
    value; [None] is the [-1] of the specification. *)
Definition string_index_of (s : jsstring) (c : code_unit) (from : nat) : option nat :=
  (fun found => from + fst found) <$> list_find (fun d => d = c) (drop from s).

(** The loop of steps 13-14: [i] is the start of the current segment,
    [pushed] the number of segments already in the array. *)
Fixpoint split_loop (fuel : nat) (lim : N) (sep : code_unit) (s : jsstring)
    (i : nat) (pushed : N) : option (list jsstring) :=
  match fuel with
  | 0 => None
  | S fuel' =>
      match string_index_of s sep i with
      | None => Some [drop i s]
      | Some j =>
          let T := take (j - i) (drop i s) in
          if bool_decide ((pushed + 1)%N = lim) then Some [T]
          else cons T <$> split_loop fuel' lim sep s (S j) (pushed + 1)%N
      end
  end.

(** [S.split(separator, limit)] with [lim = ToUint32(limit)]. *)
Definition ecma_split (lim : N) (sep : code_unit) (s : jsstring) : option (list jsstring) :=
  if bool_decide (lim = 0%N) then Some []
  else if bool_decide (s = []) then Some [s]
  else split_loop (S (length s)) lim sep s 0 0.

(** ** The scan *)

Lemma string_index_of_None (s : jsstring) (c : code_unit) (i : nat) :
  string_index_of s c i = None -> c ∉ drop i s.
Proof.
  unfold string_index_of. intros Hf%fmap_None%list_find_None Hin.
  rewrite Forall_forall in Hf. by apply (Hf c).
Qed.

Lemma string_index_of_Some (s : jsstring) (c : code_unit) (i j : nat) :
  string_index_of s c i = Some j ->
  i <= j /\ j < length s /\
  drop i s = take (j - i) (drop i s) ++ c :: drop (S j) s /\
  c ∉ take (j - i) (drop i s).
Proof.
  unfold string_index_of. intros ([k d] & Hf & ->)%fmap_Some.
  apply list_find_Some in Hf as (Hk & -> & Hbefore). simpl.
  apply lookup_lt_Some in Hk as Hlt. rewrite length_drop in Hlt.
  rewrite lookup_drop in Hk.
  split_and!; [lia|lia| |].
  - replace (i + k - i) with k by lia.
    rewrite <-(take_drop k (drop i s)) at 1. f_equal.
    rewrite drop_drop. by apply drop_S.
  - replace (i + k - i) with k by lia.
    intros (m & Hm)%list_elem_of_lookup.
    apply lookup_take_Some in Hm as [Hm Hmk].
    rewrite lookup_drop in Hm. refine (Hbefore m c _ Hmk eq_refl).
    by rewrite lookup_drop.
Qed.

Lemma js_split_drop_Some (sep : code_unit) (s : jsstring) (i j : nat) :
  string_index_of s sep i = Some j ->
  js_split sep (drop i s) = take (j - i) (drop i s) :: js_split sep (drop (S j) s) /\
  sep_count sep (drop i s) = S (sep_count sep (drop (S j) s)).
Proof.
  intros (_ & _ & Hdrop & Hnot)%string_index_of_Some.
  rewrite Hdrop at 1 3. split; [by apply js_split_app_sep|by apply sep_count_app_sep].
Qed.

Lemma js_split_drop_None (sep : code_unit) (s : jsstring) (i : nat) :
  string_index_of s sep i = None ->
  js_split sep (drop i s) = [drop i s] /\ sep_count sep (drop i s) = 0.
Proof.
  intros Hnot%string_index_of_None.
  split; [by apply js_split_no_sep_single|by apply sep_count_no_sep].
Qed.

Lemma sep_count_le (sep : code_unit) (s : jsstring) : sep_count sep s <= length s.
Proof. unfold sep_count. apply List.filter_length_le. Qed.

(** ** Fuel, and what the algorithm returns *)

Lemma split_loop_result (lim : N) (sep : code_unit) (s : jsstring) :
  forall fuel i pushed, sep_count sep (drop i s) < fuel -> (pushed < lim)%N ->
  split_loop fuel lim sep s i pushed =
    Some (take (N.to_nat (lim - pushed)) (js_split sep (drop i s))).
Proof.
  induction fuel as [|fuel IH]; intros i pushed Hfuel Hp; [lia|]. simpl.
  replace (N.to_nat (lim - pushed)) with (S (N.to_nat (lim - (pushed + 1)))) by lia.
  destruct (string_index_of s sep i) as [j|] eqn:Hj.
  - apply js_split_drop_Some in Hj as [-> Hc].
    case_bool_decide as Hl.
    + by assert (lim - (pushed + 1) = 0)%N as -> by lia.
    + rewrite IH by lia. done.
  - apply js_split_drop_None in Hj as [-> _]. simpl. by rewrite take_nil.
Qed.

(** The scan of [split] terminates after one iteration per separator
    plus one for the last segment, when the limit does not stop it
    earlier: it returns exactly when its fuel exceeds the number of
    separators left, so the fuel [ecma_split] gives is enough. *)
Theorem split_loop_iterations (lim : N) (sep : code_unit) (s : jsstring)
    (fuel i : nat) (pushed : N) :
  (pushed + N.of_nat (sep_count sep (drop i s)) < lim)%N ->
  is_Some (split_loop fuel lim sep s i pushed) <-> sep_count sep (drop i s) < fuel.
Proof.
  revert i pushed. induction fuel as [|fuel IH]; intros i pushed Hlim; simpl.
  - split; [by intros []|lia].
  - destruct (string_index_of s sep i) as [j|] eqn:Hj.
    + apply js_split_drop_Some in Hj as [_ Hc]. rewrite Hc in Hlim |- *.
      rewrite bool_decide_false by lia. rewrite fmap_is_Some, IH by lia. lia.
    + apply js_split_drop_None in Hj as [_ ->]. split; [lia|done].
Qed.

(** [split] as ECMA-262 writes it returns the first [lim] segments of
    [js_split], on every string and every limit. *)
Theorem ecma_split_take (lim : N) (sep : code_unit) (s : jsstring) :
  ecma_split lim sep s = Some (take (N.to_nat lim) (js_split sep s)).
Proof.
  unfold ecma_split. case_bool_decide as H0; [by subst|].
  case_bool_decide as Hs; [subst; destruct (N.to_nat lim) eqn:?; [lia|simpl; by rewrite take_nil]|].
  pose proof (sep_count_le sep s).
  rewrite split_loop_result; rewrite ?drop_0, ?N.sub_0_r; [done|lia..].
Qed.

(** ** On concrete strings *)

(** A limit cuts the array: splitting [a,b,c] on a comma with the limit 2
    gives the segments [a] and [b]. *)
Example ecma_split_limit_two :
  ecma_split (split_limit (Some 2%Z)) (cu ",") (js "a,b,c") = Some [js "a"; js "b"].
Proof. vm_compute. reflexivity. Qed.
