(* ===== verification/FormModel.v ===== *)
(** * The form: its data, its change handler and its constraints

    [CreateInvitation.tsx] keeps the eight controls of the form in one
    [FormData] state object (interface at lines 6-15, initial value at
    lines 51-60). Every control calls [handleChange] (lines 103-106),
    which copies the previous object and overwrites the property named by
    the control's [name] attribute. The markup constrains the values that
    reach the handlers: the event-type [<select>] offers four values
    (lines 128-131), and seven controls carry [required], so the browser
    fires [onSubmit] only when none of them is empty. On submission the
    handler builds [jsonData], the form with the guest list replaced by
    the array of trimmed addresses (lines 81-84).

    The controls themselves (lines 115-250) are [form_controls]: their
    element, [name] attribute and [required] flag, from which
    [required_fields] is computed. [handleChange] writes
    [{ ...prev, [name]: value }], a JavaScript object with a computed
    key; [form_object] and [obj_set] model that object and that update,
    and [control_change_typed] shows that on every control it is the
    record update [handleChange].

    The spec's RequestModel ([build], section 4.2) is modelled as
    [spec_build]: every field but the custom message non-blank after
    trimming, the guest list through [spec_validate], the event type
    normalised to an enumeration. *)

From S2P Require Import Prelude JsString HtmlInput EmailValidator.

(** ** Data *)

Record FormData := mkFormData {
  eventType : jsstring;
  hostNames : jsstring;
  eventDate : jsstring;
  eventTime : jsstring;
  venue : jsstring;
  rsvpDeadline : jsstring;
  customMessage : jsstring;
  guestList : jsstring
}.

(** The [name] attributes of the controls, one per property of [FormData]. *)
Inductive field :=
| FEventType | FHostNames | FEventDate | FEventTime
| FVenue | FRsvpDeadline | FCustomMessage | FGuestList.

#[export] Instance field_eq_dec : EqDecision field.
Proof. solve_decision. Defined.

Definition initialFormData : FormData :=
  mkFormData [] [] [] [] [] [] [] [].

Definition get_field (f : field) (fd : FormData) : jsstring :=
  match f with
  | FEventType => eventType fd
  | FHostNames => hostNames fd
  | FEventDate => eventDate fd
  | FEventTime => eventTime fd
  | FVenue => venue fd
  | FRsvpDeadline => rsvpDeadline fd
  | FCustomMessage => customMessage fd
  | FGuestList => guestList fd
  end.

(** The property names of the interface, as the [name] attributes spell them. *)
Definition field_name (f : field) : jsstring :=
  match f with
  | FEventType => js "eventType"
  | FHostNames => js "hostNames"
  | FEventDate => js "eventDate"
  | FEventTime => js "eventTime"
  | FVenue => js "venue"
  | FRsvpDeadline => js "rsvpDeadline"
  | FCustomMessage => js "customMessage"
  | FGuestList => js "guestList"
  end.

(** The properties in the order of the initial object (lines 51-60). *)
Definition all_fields : list field :=
  [FEventType; FHostNames; FEventDate; FEventTime; FVenue; FRsvpDeadline;
   FCustomMessage; FGuestList].

(** The property a computed key [name] names, if any. *)
Definition field_of_name (name : jsstring) : option field :=
  List.find (fun f => bool_decide (field_name f = name)) all_fields.

(** The state object as JavaScript holds it: its own properties in order. *)
Definition form_object (fd : FormData) : list (jsstring * jsstring) :=
  map (fun f => (field_name f, get_field f fd)) all_fields.

(** [{ ...prev, [k]: v }]: the copied properties, with [k] overwritten in
    place when [prev] has it and added at the end otherwise. *)
Fixpoint obj_set {V} (k : jsstring) (v : V) (o : list (jsstring * V)) : list (jsstring * V) :=
  match o with
  | [] => [(k, v)]
  | (k', v') :: o' => if bool_decide (k = k') then (k, v) :: o' else (k', v') :: obj_set k v o'
  end.

(** [setFormData(prev => ({ ...prev, [name]: value }))], on the record:
    the typed reading of the computed key. *)
Definition handleChange (name : field) (value : jsstring) (prev : FormData) : FormData :=
  let '(mkFormData et hn ed tm vn rd cm gl) := prev in
  match name with
  | FEventType => mkFormData value hn ed tm vn rd cm gl
  | FHostNames => mkFormData et value ed tm vn rd cm gl
  | FEventDate => mkFormData et hn value tm vn rd cm gl
  | FEventTime => mkFormData et hn ed value vn rd cm gl
  | FVenue => mkFormData et hn ed tm value rd cm gl
  | FRsvpDeadline => mkFormData et hn ed tm vn value cm gl
  | FCustomMessage => mkFormData et hn ed tm vn rd value gl
  | FGuestList => mkFormData et hn ed tm vn rd cm value
  end.

(** ** What the markup lets through *)

(** The [<option>] values of the event-type [<select>]. *)
Definition event_type_options : list jsstring :=
  [js ""; js "wedding"; js "birthday"; js "corporate"].

(** The controls of the form, in document order: their element (with
    its options for the [<select>]), their [name] attribute and whether
    they carry [required]. Every one has [value={formData[name]}] and
    [onChange={handleChange}]. *)
Inductive control_tag :=
| Select (options : list jsstring)
| InputText
| InputDate
| InputTime
| TextArea.

Record control := mkControl {
  ctl_tag : control_tag;
  ctl_name : jsstring;
  ctl_required : bool
}.

#[export] Instance control_tag_eq_dec : EqDecision control_tag.
Proof. solve_decision. Defined.
#[export] Instance control_eq_dec : EqDecision control.
Proof. solve_decision. Defined.

Definition form_controls : list control :=
  [mkControl (Select event_type_options) (js "eventType") true;
   mkControl InputText (js "hostNames") true;
   mkControl InputDate (js "eventDate") true;
   mkControl InputTime (js "eventTime") true;
   mkControl InputText (js "venue") true;
   mkControl InputDate (js "rsvpDeadline") true;
   mkControl InputText (js "guestList") true;
   mkControl TextArea (js "customMessage") false].

(** The value a control of each kind can hold once the browser has
    sanitised it (see [HtmlInput]). *)
Definition value_ok (tag : control_tag) (value : jsstring) : bool :=
  match tag with
  | Select options => bool_decide (value ∈ options)
  | InputText => no_line_break value
  | InputDate => bool_decide (value = []) || valid_date_string value
  | InputTime => bool_decide (value = []) || valid_time_string value
  | TextArea => true
  end.

(** The control whose [name] is the property. *)
Definition control_of_field (f : field) : option control :=
  List.find (fun c => bool_decide (ctl_name c = field_name f)) form_controls.

(** The values a change event of the property's control can carry. *)
Definition control_value_ok (name : field) (value : jsstring) : bool :=
  match control_of_field name with
  | Some c => value_ok (ctl_tag c) value
  | None => false
  end.

(** Every property holds a value its control can carry. *)
Definition form_values_ok (fd : FormData) : Prop :=
  Forall (fun f => control_value_ok f (get_field f fd) = true) all_fields.

(** The properties whose control carries [required]. *)
Definition required_fields : list field :=
  omap (fun c => if ctl_required c then field_of_name (ctl_name c) else None)
    form_controls.

(** Constraint validation of [required]: the value is not empty. *)
Definition constraints_ok (fd : FormData) : bool :=
  forallb (fun f => negb (bool_decide (get_field f fd = []))) required_fields.

(** ** The request payload *)

(** [jsonData = { ...formData, guestList: emails }]. *)
Record InvitationRequest := mkInvitationRequest {
  req_eventType : jsstring;
  req_hostNames : jsstring;
  req_eventDate : jsstring;
  req_eventTime : jsstring;
  req_venue : jsstring;
  req_rsvpDeadline : jsstring;
  req_customMessage : jsstring;
  req_guestList : list jsstring
}.

Definition build_jsonData (fd : FormData) (emails : list jsstring) : InvitationRequest :=
  mkInvitationRequest (eventType fd) (hostNames fd) (eventDate fd) (eventTime fd)
    (venue fd) (rsvpDeadline fd) (customMessage fd) emails.

(** ** The spec's RequestModel (spec section 4.2) *)

Inductive EventType := Wedding | Birthday | Corporate.

Definition parse_event_type (s : jsstring) : option EventType :=
  if bool_decide (s = js "wedding") then Some Wedding
  else if bool_decide (s = js "birthday") then Some Birthday
  else if bool_decide (s = js "corporate") then Some Corporate
  else None.

Record SpecRequest := mkSpecRequest {
  sr_eventType : EventType;
  sr_hostNames : jsstring;
  sr_eventDate : jsstring;
  sr_eventTime : jsstring;
  sr_venue : jsstring;
  sr_rsvpDeadline : jsstring;
  sr_customMessage : jsstring;
  sr_guestList : list jsstring
}.

(** The first required field that is blank once trimmed. *)
Definition spec_missing (fd : FormData) : option field :=
  List.find (fun f => bool_decide (js_trim (get_field f fd) = [])) required_fields.

Local Open Scope celebrify_scope.

Definition spec_build (fd : FormData) : result SpecRequest ValidationError :=
  match spec_missing fd with
  | Some f => Err (MissingField (field_name f))
  | None =>
      emails <- spec_validate (guestList fd) ;;
      match parse_event_type (eventType fd) with
      | None => Err UnknownEventType
      | Some et =>
          Ok (mkSpecRequest et (hostNames fd) (eventDate fd) (eventTime fd)
                (venue fd) (rsvpDeadline fd) (customMessage fd) emails)
      end
  end.

(** The spec's request that corresponds to the payload the code sends. *)
Definition spec_request_of (r : InvitationRequest) (et : EventType) : SpecRequest :=
  mkSpecRequest et (req_hostNames r) (req_eventDate r) (req_eventTime r)
    (req_venue r) (req_rsvpDeadline r) (req_customMessage r) (req_guestList r).

(** ** Lemmas *)

Lemma get_handleChange_same (f : field) (v : jsstring) (fd : FormData) :
  get_field f (handleChange f v fd) = v.
Proof. by destruct fd, f. Qed.

Lemma get_handleChange_other (f g : field) (v : jsstring) (fd : FormData) :
  f <> g -> get_field g (handleChange f v fd) = get_field g fd.
Proof. destruct fd, f, g; simpl; congruence. Qed.

Lemma parse_event_type_options (s : jsstring) :
  s ∈ event_type_options -> s <> [] -> exists et, parse_event_type s = Some et.
Proof.
  unfold event_type_options. rewrite !elem_of_cons, elem_of_nil.
  intros [->|[->|[->|[->|[]]]]] Hne; [done| | |]; vm_compute; eauto.
Qed.

Lemma constraints_ok_required (fd : FormData) (f : field) :
  constraints_ok fd = true -> f ∈ required_fields -> get_field f fd <> [].
Proof.
  unfold constraints_ok. rewrite forallb_Forall_iff, Forall_forall.
  intros Hall Hf. specialize (Hall f Hf). cbv beta in Hall. bool_to_prop. done.
Qed.

#[export] Hint Rewrite get_handleChange_same : celebrify_rw.

Lemma form_values_ok_initial : form_values_ok initialFormData.
Proof. repeat constructor. Qed.

Lemma form_values_ok_get (fd : FormData) (f : field) :
  form_values_ok fd -> control_value_ok f (get_field f fd) = true.
Proof. intros Hv. apply (proj1 (Forall_forall _ _) Hv). destruct f; set_solver. Qed.

Lemma form_values_ok_change (f : field) (v : jsstring) (fd : FormData) :
  control_value_ok f v = true -> form_values_ok fd -> form_values_ok (handleChange f v fd).
Proof.
  intros Hf Hv. apply Forall_forall. intros g _.
  destruct (decide (f = g)) as [<-|Hne].
  - by rewrite get_handleChange_same.
  - rewrite get_handleChange_other by done. by apply form_values_ok_get.
Qed.

Lemma control_of_field_kinds :
  control_of_field FEventDate = Some (mkControl InputDate (js "eventDate") true) /\
  control_of_field FRsvpDeadline = Some (mkControl InputDate (js "rsvpDeadline") true) /\
  control_of_field FEventTime = Some (mkControl InputTime (js "eventTime") true) /\
  control_of_field FHostNames = Some (mkControl InputText (js "hostNames") true) /\
  control_of_field FVenue = Some (mkControl InputText (js "venue") true) /\
  control_of_field FGuestList = Some (mkControl InputText (js "guestList") true).
Proof. vm_compute. repeat split. Qed.

Lemma form_values_ok_event_type (fd : FormData) :
  form_values_ok fd -> eventType fd ∈ event_type_options.
Proof.
  intros Hv. pose proof (form_values_ok_get fd FEventType Hv) as H.
  vm_compute in H |- *. by apply bool_decide_eq_true_1 in H.
Qed.

(** What the kind of a required control guarantees once it is filled in. *)
Lemma required_value_kind (fd : FormData) (f : field) :
  form_values_ok fd -> constraints_ok fd = true -> f ∈ required_fields ->
  match control_of_field f with
  | Some c => value_ok (ctl_tag c) (get_field f fd) = true /\ get_field f fd <> []
  | None => False
  end.
Proof.
  intros Hv Hc Hf. pose proof (form_values_ok_get fd f Hv) as Hok.
  unfold control_value_ok in Hok. destruct (control_of_field f); [|done].
  split; [done|]. by apply constraints_ok_required.
Qed.

Lemma value_ok_filled (tag : control_tag) (v : jsstring) :
  value_ok tag v = true -> v <> [] ->
  match tag with
  | InputDate => valid_date_string v = true
  | InputTime => valid_time_string v = true
  | InputText => no_line_break v = true
  | Select options => v ∈ options
  | TextArea => True
  end.
Proof.
  destruct tag; simpl; intros H Hne; try done; try (by bool_to_prop);
    apply orb_true_iff in H as [H|H]; bool_to_prop; done.
Qed.

(** A form the browser lets through has well-formed dates and time, and
    no line break in its text inputs. *)
Lemma filled_form_well_formed (fd : FormData) :
  form_values_ok fd -> constraints_ok fd = true ->
  valid_date_string (eventDate fd) = true /\ valid_date_string (rsvpDeadline fd) = true /\
  valid_time_string (eventTime fd) = true /\
  Forall (fun s => no_line_break s = true) [hostNames fd; venue fd; guestList fd].
Proof.
  intros Hv Hc.
  pose proof (fun f Hf => required_value_kind fd f Hv Hc Hf) as Hk.
  destruct control_of_field_kinds as (E1 & E2 & E3 & E4 & E5 & E6).
  pose proof (Hk FEventDate ltac:(decide_concrete)) as H1.
  pose proof (Hk FRsvpDeadline ltac:(decide_concrete)) as H2.
  pose proof (Hk FEventTime ltac:(decide_concrete)) as H3.
  pose proof (Hk FHostNames ltac:(decide_concrete)) as H4.
  pose proof (Hk FVenue ltac:(decide_concrete)) as H5.
  pose proof (Hk FGuestList ltac:(decide_concrete)) as H6.
  rewrite E1 in H1; rewrite E2 in H2; rewrite E3 in H3;
    rewrite E4 in H4; rewrite E5 in H5; rewrite E6 in H6.
  apply (fun H => value_ok_filled _ _ (proj1 H) (proj2 H)) in H1, H2, H3, H4, H5, H6.
  simpl in H1, H2, H3, H4, H5, H6. by repeat constructor.
Qed.

(** Setting a property of the state object through its name is
    [handleChange] on the record. *)
Lemma obj_set_form_object (f : field) (value : jsstring) (fd : FormData) :
  obj_set (field_name f) value (form_object fd) = form_object (handleChange f value fd).
Proof. destruct fd, f; vm_compute; reflexivity. Qed.

Lemma field_of_name_Some (name : jsstring) (f : field) :
  field_of_name name = Some f -> field_name f = name.
Proof. unfold field_of_name. intros [_ ?]%List.find_some. by bool_to_prop. Qed.

Lemma form_controls_named :
  Forall (fun c => is_Some (field_of_name (ctl_name c))) form_controls.
Proof. repeat constructor; by eexists. Qed.

(** C: the [name] attribute of every control of the form is a property
    of [FormData], so the computed key of [handleChange] overwrites that
    property in place: the state object keeps the interface's properties,
    and the change is [handleChange] on the typed record. *)
Theorem control_change_typed (c : control) (value : jsstring) (fd : FormData) :
  c ∈ form_controls ->
  exists f, field_of_name (ctl_name c) = Some f /\
    obj_set (ctl_name c) value (form_object fd) = form_object (handleChange f value fd).
Proof.
  intros Hc. destruct (proj1 (Forall_forall _ _) form_controls_named c Hc) as [f Hf].
  exists f. split; [done|]. rewrite <-(field_of_name_Some _ _ Hf).
  apply obj_set_form_object.
Qed.

(** C: when the browser lets the form through and the code accepts its
    guest list, and no required field is blank once trimmed, the spec's
    RequestModel builds the very request the code sends: the code's
    payload refines the spec's [build]. *)
Theorem spec_build_refines_code (fd : FormData) (es : list jsstring) :
  constraints_ok fd = true ->
  eventType fd ∈ event_type_options ->
  validate_guest_list (guestList fd) = Some es ->
  spec_missing fd = None ->
  exists et, parse_event_type (eventType fd) = Some et /\
    spec_build fd = Ok (spec_request_of (build_jsonData fd es) et).
Proof.
  intros Hc Het Hv Hm.
  destruct (parse_event_type_options _ Het) as [et Hp].
  { apply (constraints_ok_required fd FEventType); [done|by left]. }
  exists et. split; [done|].
  unfold spec_build. rewrite Hm, (validate_refines_spec _ _ Hv). simpl.
  by rewrite Hp.
Qed.

(** The example form of section 8 of the spec. *)
Definition spec_example_form : FormData :=
  mkFormData (js "wedding") (js "Alice & Bob") (js "2025-06-01") (js "18:00")
    (js "Garden Hall") (js "2025-05-01") (js "") (js "a@x.com, b@y.com").

Lemma spec_build_refines_code_witness :
  exists et, parse_event_type (eventType spec_example_form) = Some et /\
    spec_build spec_example_form =
    Ok (spec_request_of (build_jsonData spec_example_form
                           [js "a@x.com"; js "b@y.com"]) et).
Proof.
  apply spec_build_refines_code.
  - vm_compute. reflexivity.
  - decide_concrete.
  - vm_compute. reflexivity.
  - vm_compute. reflexivity.
Defined.

(** The browser's [required] check does not trim: host names made of a
    single space pass it, where the spec's [build] reports the field. *)
Example blank_host_names_divergence :
  let fd := handleChange FHostNames (js " ") spec_example_form in
  constraints_ok fd = true /\
  validate_guest_list (guestList fd) <> None /\
  spec_build fd = Err (MissingField (js "hostNames")).
Proof. vm_compute. split; [reflexivity|]. split; [discriminate|reflexivity]. Qed.

Lemma control_change_typed_witness :
  mkControl InputText (js "guestList") true ∈ form_controls /\
  exists f, field_of_name (ctl_name (mkControl InputText (js "guestList") true)) = Some f /\
    obj_set (ctl_name (mkControl InputText (js "guestList") true)) (js "a@x.com")
      (form_object spec_example_form) =
    form_object (handleChange f (js "a@x.com") spec_example_form).
Proof. split; [decide_concrete|apply control_change_typed; decide_concrete]. Defined.
