(* ===== verification/Invitation.v ===== *)
(** * The backend response: its interface, its JSON form and the mock

    [CreateInvitation.tsx] declares the shape of the generation backend's
    answer as the TypeScript interface [InvitationOutput] (lines 17-30):
    five properties keyed by backend-generated identifiers, holding the
    invitation text, an audio URL wrapped in [{ output }], an image URL,
    a [{ latitude, longitude }] location and a [{ id, threadId, labelIds }]
    delivery receipt. [mockApiResponse] (lines 33-48) produces such an
    object from the request: the text is a template over the request's
    fields, the four other properties are constants.

    The interface is modelled twice: as the record [InvitationOutput], and
    as the set of JSON values that inhabit it, accepted by [decode_output].
    [encode_output] writes a record out as a JSON object, in the order of
    the interface; it has no counterpart in the code and only serves to
    build concrete responses. A JavaScript object read from JSON keeps the
    last of duplicate keys, which is what [obj_get] returns. Numbers are
    kept as the rationals their decimal literals denote. *)

From Stdlib Require Import QArith.
From S2P Require Import Prelude FormModel.

(** ** The interface *)

Record Location := mkLocation { latitude : Q; longitude : Q }.

Record DeliveryReceipt := mkDeliveryReceipt {
  id : jsstring;
  threadId : jsstring;
  labelIds : list jsstring
}.

Record InvitationOutput := mkInvitationOutput {
  output : jsstring;
  (** [output_1732498863574: { output: string }] *)
  output_1732498863574 : jsstring;
  (** ["19f72370-d1ab-4b25-832f-cfeccedcadec": string] *)
  image_19f72370 : jsstring;
  (** ["1f4b5b22-0469-4d68-9250-ea81f8c0be03": { latitude; longitude }] *)
  location_1f4b5b22 : Location;
  (** ["5817d4b1-0134-4a52-96d9-7ff0b391b32b": { id; threadId; labelIds }] *)
  receipt_5817d4b1 : DeliveryReceipt
}.

Definition key_output : jsstring := js "output".
Definition key_audio : jsstring := js "output_1732498863574".
Definition key_image : jsstring := js "19f72370-d1ab-4b25-832f-cfeccedcadec".
Definition key_location : jsstring := js "1f4b5b22-0469-4d68-9250-ea81f8c0be03".
Definition key_receipt : jsstring := js "5817d4b1-0134-4a52-96d9-7ff0b391b32b".

(** ** JSON values *)

Inductive json :=
| JNull
| JBool (b : bool)
| JNumber (n : Q)
| JString (s : jsstring)
| JArray (xs : list json)
| JObject (members : list (jsstring * json)).

(** Property access on an object: the last member with the key. *)
Fixpoint obj_get (k : jsstring) (members : list (jsstring * json)) : option json :=
  match members with
  | [] => None
  | (k', v) :: rest =>
      match obj_get k rest with
      | Some w => Some w
      | None => if bool_decide (k = k') then Some v else None
      end
  end.

Definition as_string (j : json) : option jsstring :=
  match j with JString s => Some s | _ => None end.
Definition as_number (j : json) : option Q :=
  match j with JNumber n => Some n | _ => None end.
Definition as_array (j : json) : option (list json) :=
  match j with JArray xs => Some xs | _ => None end.
Definition as_object (j : json) : option (list (jsstring * json)) :=
  match j with JObject ms => Some ms | _ => None end.

Definition get_as {A} (cast : json -> option A) (k : jsstring)
  (ms : list (jsstring * json)) : option A :=
  obj_get k ms ≫= cast.

(** ** Decoding and encoding the interface *)

Definition decode_audio (j : json) : option jsstring :=
  as_object j ≫= get_as as_string key_output.

Definition decode_location (j : json) : option Location :=
  ms ← as_object j;
  lat ← get_as as_number (js "latitude") ms;
  lon ← get_as as_number (js "longitude") ms;
  Some (mkLocation lat lon).

(** [labelIds: string[]] *)
Definition decode_labels (j : json) : option (list jsstring) :=
  as_array j ≫= mapM as_string.

Definition decode_receipt (j : json) : option DeliveryReceipt :=
  ms ← as_object j;
  i ← get_as as_string (js "id") ms;
  t ← get_as as_string (js "threadId") ms;
  ls ← get_as decode_labels (js "labelIds") ms;
  Some (mkDeliveryReceipt i t ls).

Definition decode_output (j : json) : option InvitationOutput :=
  ms ← as_object j;
  text ← get_as as_string key_output ms;
  audio ← obj_get key_audio ms ≫= decode_audio;
  image ← get_as as_string key_image ms;
  loc ← obj_get key_location ms ≫= decode_location;
  rcpt ← obj_get key_receipt ms ≫= decode_receipt;
  Some (mkInvitationOutput text audio image loc rcpt).

Definition encode_location (l : Location) : json :=
  JObject [(js "latitude", JNumber (latitude l)); (js "longitude", JNumber (longitude l))].

Definition encode_receipt (r : DeliveryReceipt) : json :=
  JObject [(js "id", JString (id r)); (js "threadId", JString (threadId r));
           (js "labelIds", JArray (map JString (labelIds r)))].

Definition encode_output (o : InvitationOutput) : json :=
  JObject [(key_output, JString (output o));
           (key_audio, JObject [(key_output, JString (output_1732498863574 o))]);
           (key_image, JString (image_19f72370 o));
           (key_location, encode_location (location_1f4b5b22 o));
           (key_receipt, encode_receipt (receipt_5817d4b1 o))].

(** ** The mock backend (lines 33-48) *)

Definition nl : jsstring := [10%N].

(** The template literal of line 34. *)
Definition mock_text (formData : InvitationRequest) : jsstring :=
  js "Front of the Invitation:" ++ nl ++ nl ++
  js "Together with their families" ++ nl ++ nl ++
  js "**" ++ req_hostNames formData ++ js "**" ++ nl ++ nl ++
  js "request the honour of your presence at their " ++ req_eventType formData ++
  nl ++ nl ++ nl ++
  js "Back of the Invitation:" ++ nl ++ nl ++
  js "**Date:** " ++ req_eventDate formData ++ nl ++ nl ++
  js "**Time:** " ++ req_eventTime formData ++ nl ++ nl ++
  js "**Venue:** " ++ req_venue formData ++ nl ++ nl ++ nl ++
  js "Reception to follow" ++ nl ++ nl ++ nl ++
  js "Kindly RSVP by " ++ req_rsvpDeadline formData ++ nl ++ nl ++ nl ++
  req_customMessage formData.

Definition mockApiResponse (formData : InvitationRequest) : InvitationOutput :=
  mkInvitationOutput
    (mock_text formData)
    (js "https://replicate.delivery/yhqm/wtnHXFrV2mZpJ5ix6pky02hc7eWN8tDhCFM5W3E2ew7YlY0TA/out.wav")
    (js "https://replicate.delivery/czjl/Bp2KtYSGOx5cGRijBFIKCz4DJ3bREGLYXzzMhPgQG4TLJG9E/tmpoxy_fc0m.png")
    (mkLocation 42.088313 (-72.57835589999999))
    (mkDeliveryReceipt (js "1936101365e7c6a7") (js "1936101365e7c6a7") [js "SENT"]).

(** ** Lemmas *)

Lemma obj_get_last (k : jsstring) (v : json) (ms : list (jsstring * json)) :
  obj_get k (ms ++ [(k, v)]) = Some v.
Proof.
  induction ms as [|[k' v'] ms IH]; simpl.
  - by rewrite bool_decide_true.
  - by rewrite IH.
Qed.

(** ** Objects up to the values their keys read *)

Definition obj_equiv (ms ms' : list (jsstring * json)) : Prop :=
  forall k, obj_get k ms = obj_get k ms'.

#[export] Instance obj_equiv_equivalence : Equivalence obj_equiv.
Proof.
  split; [by intros ms k|by intros ms ms' H k|].
  intros ms1 ms2 ms3 H12 H23 k. by rewrite H12, H23.
Qed.

Lemma obj_get_in_keys (k : jsstring) (ms : list (jsstring * json)) (v : json) :
  obj_get k ms = Some v -> In k (map fst ms).
Proof.
  induction ms as [|[k' v'] ms IH]; simpl; [done|].
  destruct (obj_get k ms) eqn:Hg; [intros [= ->]; right; by apply IH|].
  case_bool_decide; [subst; by left|done].
Qed.

Lemma obj_get_None_iff (k : jsstring) (ms : list (jsstring * json)) :
  obj_get k ms = None <-> ~ In k (map fst ms).
Proof.
  split.
  - induction ms as [|[k' v'] ms IH]; simpl; [tauto|].
    destruct (obj_get k ms) eqn:Hg; [done|].
    case_bool_decide; [done|]. intros _ [->|Hin]; [done|]. exact (IH eq_refl Hin).
  - intros Hn. destruct (obj_get k ms) eqn:Hg; [|done]. exfalso.
    apply Hn. by eapply obj_get_in_keys.
Qed.

Lemma obj_get_Some_iff (k : jsstring) (v : json) (ms : list (jsstring * json)) :
  List.NoDup (map fst ms) -> obj_get k ms = Some v <-> In (k, v) ms.
Proof.
  induction ms as [|[k' v'] ms IH]; simpl; [done|].
  intros Hnd. apply List.NoDup_cons_iff in Hnd as [Hk' Hnd]. specialize (IH Hnd).
  destruct (obj_get k ms) as [w|] eqn:Hg.
  - rewrite <-IH. split; [naive_solver|].
    intros [[= -> ->]|Hin]; [|done]. exfalso. apply Hk'. by eapply obj_get_in_keys.
  - case_bool_decide as Hk; subst.
    + split; [intros [= ->]; by left|]. intros [[= ->]|Hin]; [done|].
      exfalso. apply Hk'. by apply (in_map fst) in Hin.
    + split; [done|]. intros [[= -> ->]|Hin]; [done|]. apply IH in Hin. congruence.
Qed.

(** A JavaScript object read from JSON has distinct keys; their order
    does not change what its properties read. *)
Lemma perm_obj_equiv (ms ms' : list (jsstring * json)) :
  List.NoDup (map fst ms) -> Permutation ms ms' -> obj_equiv ms ms'.
Proof.
  intros Hnd Hp k. assert (List.NoDup (map fst ms')) as Hnd'.
  { eapply Permutation_NoDup; [|exact Hnd]. by apply Permutation_map. }
  destruct (obj_get k ms) as [v|] eqn:Hg.
  - symmetry. apply obj_get_Some_iff; [done|].
    eapply Permutation_in; [exact Hp|]. by apply obj_get_Some_iff.
  - symmetry. apply obj_get_None_iff. intros Hin. apply obj_get_None_iff in Hg.
    apply Hg. eapply Permutation_in; [|exact Hin]. symmetry. by apply Permutation_map.
Qed.

(** The fields of the request that the mock's template writes out. *)
Lemma mock_output_mentions (r : InvitationRequest) :
  Forall (fun x => infix_of x (output (mockApiResponse r)))
    [req_hostNames r; req_eventType r; req_eventDate r; req_eventTime r;
     req_venue r; req_rsvpDeadline r].
Proof. simpl. unfold mock_text. repeat constructor; eauto 60 with celebrify. Qed.

(** C: the invitation text of the mock names the host names, the event
    type, the date, the time, the venue and the RSVP deadline the user
    entered, and ends with the custom message. *)
Theorem mock_text_fields (r : InvitationRequest) :
  Forall (fun x => infix_of x (output (mockApiResponse r)))
    [req_hostNames r; req_eventType r; req_eventDate r; req_eventTime r;
     req_venue r; req_rsvpDeadline r] /\
  req_customMessage r `suffix_of` output (mockApiResponse r).
Proof.
  split; [apply mock_output_mentions|].
  simpl. unfold mock_text. repeat apply suffix_app_r. reflexivity.
Qed.
