(* ===== verification/ArtifactAdapter.v ===== *)
(** * The spec's ArtifactAdapter, against the code's response interface

    The code has no adapter: it stores the backend's object as it is and
    relies on the TypeScript interface [InvitationOutput] (lines 17-30)
    for its shape. The spec (section 4.4) asks for a declarative table
    from the semantic fields to the opaque keys and shapes, and an
    [adapt] that reads each field under its key, checks its shape,
    requires the invitation text and makes the other fields optional.
    This file models that adapter over the JSON values of [Invitation]:
    the table is the interface's keys and shapes, [adapt] is written from
    the spec, and the theorems relate it to the code's interface: every
    value of the interface adapts to a complete artifact. *)

From Stdlib Require Import QArith.
From S2P Require Import Prelude FormModel Invitation.

Inductive semantic_field :=
| InvitationText | AudioUrl | ImageUrl | VenueLocation | DeliveryReceiptField.

Inductive shape := ShapeString | ShapeOutputObject | ShapeLatLng | ShapeReceipt.

#[export] Instance semantic_field_eq_dec : EqDecision semantic_field.
Proof. solve_decision. Defined.

(** The keys and shapes of the interface (lines 17-30), per semantic field. *)
Definition mapping_table : list (semantic_field * jsstring * shape) :=
  [(InvitationText, key_output, ShapeString);
   (AudioUrl, key_audio, ShapeOutputObject);
   (ImageUrl, key_image, ShapeString);
   (VenueLocation, key_location, ShapeLatLng);
   (DeliveryReceiptField, key_receipt, ShapeReceipt)].

Definition key_of (f : semantic_field) : jsstring :=
  match List.find (fun row => bool_decide (row.1.1 = f)) mapping_table with
  | Some row => row.1.2
  | None => []
  end.

Record InvitationArtifact := mkInvitationArtifact {
  invitationText : jsstring;
  audioUrl : option jsstring;
  imageUrl : option jsstring;
  venueLocation : option Location;
  deliveryReceipt : option DeliveryReceipt
}.

Record MappingError := mkMappingError {
  me_field : semantic_field;
  me_expected : shape;
  me_actual : option json
}.

Local Open Scope celebrify_scope.

(** An optional field: absent is [None], present with the wrong shape is
    an error naming the field. *)
Definition adapt_optional {A} (f : semantic_field) (sh : shape)
  (decode : json -> option A) (ms : list (jsstring * json))
  : result (option A) MappingError :=
  match obj_get (key_of f) ms with
  | None => Ok None
  | Some v =>
      match decode v with
      | Some a => Ok (Some a)
      | None => Err (mkMappingError f sh (Some v))
      end
  end.

Definition adapt_text (ms : list (jsstring * json)) : result jsstring MappingError :=
  match obj_get (key_of InvitationText) ms with
  | None => Err (mkMappingError InvitationText ShapeString None)
  | Some v =>
      match as_string v with
      | Some s => Ok s
      | None => Err (mkMappingError InvitationText ShapeString (Some v))
      end
  end.

Definition adapt (raw : json) : result InvitationArtifact MappingError :=
  match as_object raw with
  | None => Err (mkMappingError InvitationText ShapeString (Some raw))
  | Some ms =>
      text <- adapt_text ms ;;
      audio <- adapt_optional AudioUrl ShapeOutputObject decode_audio ms ;;
      image <- adapt_optional ImageUrl ShapeString as_string ms ;;
      loc <- adapt_optional VenueLocation ShapeLatLng decode_location ms ;;
      rcpt <- adapt_optional DeliveryReceiptField ShapeReceipt decode_receipt ms ;;
      Ok (mkInvitationArtifact text audio image loc rcpt)
  end.

(** The artifact a complete response denotes. *)
Definition artifact_of (o : InvitationOutput) : InvitationArtifact :=
  mkInvitationArtifact (output o) (Some (output_1732498863574 o))
    (Some (image_19f72370 o)) (Some (location_1f4b5b22 o)) (Some (receipt_5817d4b1 o)).

(** ** The adapter against the interface *)

Lemma adapt_text_Some (ms : list (jsstring * json)) (v : json) (s : jsstring) :
  obj_get key_output ms = Some v -> as_string v = Some s -> adapt_text ms = Ok s.
Proof. intros Hv Hs. unfold adapt_text. change (key_of InvitationText) with key_output. by rewrite Hv, Hs. Qed.

Lemma adapt_optional_Some {A} (f : semantic_field) (sh : shape)
    (decode : json -> option A) (ms : list (jsstring * json)) (v : json) (a : A) :
  obj_get (key_of f) ms = Some v -> decode v = Some a ->
  adapt_optional f sh decode ms = Ok (Some a).
Proof. intros Hv Ha. unfold adapt_optional. by rewrite Hv, Ha. Qed.

(** C: every JSON value of the code's response interface adapts, under
    the spec's table, to the complete artifact it denotes: the adapter
    refines the interface. *)
Theorem adapt_refines_decode (j : json) (o : InvitationOutput) :
  decode_output j = Some o -> adapt j = Ok (artifact_of o).
Proof.
  intros H. unfold decode_output, get_as in H.
  destruct j as [| | | | |ms]; simpl in H; try discriminate.
  destruct (obj_get key_output ms) as [vt|] eqn:Ht; simpl in H; [|discriminate].
  destruct (as_string vt) as [text|] eqn:Hts; simpl in H; [|discriminate].
  destruct (obj_get key_audio ms) as [va|] eqn:Ha; simpl in H; [|discriminate].
  destruct (decode_audio va) as [audio|] eqn:Has; simpl in H; [|discriminate].
  destruct (obj_get key_image ms) as [vi|] eqn:Hi; simpl in H; [|discriminate].
  destruct (as_string vi) as [image|] eqn:His; simpl in H; [|discriminate].
  destruct (obj_get key_location ms) as [vl|] eqn:Hl; simpl in H; [|discriminate].
  destruct (decode_location vl) as [loc|] eqn:Hls; simpl in H; [|discriminate].
  destruct (obj_get key_receipt ms) as [vr|] eqn:Hr; simpl in H; [|discriminate].
  destruct (decode_receipt vr) as [rcpt|] eqn:Hrs; simpl in H; [|discriminate].
  invc H. unfold adapt; simpl.
  rewrite (adapt_text_Some ms vt text) by done. simpl.
  rewrite (adapt_optional_Some AudioUrl _ _ ms va audio) by done. simpl.
  rewrite (adapt_optional_Some ImageUrl _ _ ms vi image) by done. simpl.
  rewrite (adapt_optional_Some VenueLocation _ _ ms vl loc) by done. simpl.
  by rewrite (adapt_optional_Some DeliveryReceiptField _ _ ms vr rcpt).
Qed.

(** C: a response without the mandatory text key fails with a mapping
    error that names the invitation text. *)
Theorem adapt_missing_text (ms : list (jsstring * json)) :
  obj_get key_output ms = None ->
  adapt (JObject ms) = Err (mkMappingError InvitationText ShapeString None).
Proof.
  intros H. unfold adapt, adapt_text; simpl.
  change (key_of InvitationText) with key_output. by rewrite H.
Qed.

(** C: there is no degraded success: an adapted artifact always comes from
    an object holding its text, as a string, under the text key. *)
Theorem adapt_Ok_text (j : json) (a : InvitationArtifact) :
  adapt j = Ok a ->
  exists ms, j = JObject ms /\ obj_get key_output ms = Some (JString (invitationText a)).
Proof.
  unfold adapt. destruct j as [| | | | |ms]; simpl; try discriminate. intros H.
  apply result_bind_Ok in H as (text & Ht & H).
  repeat (apply result_bind_Ok in H as (? & _ & H)). invc H.
  exists ms. split; [done|]. simpl. unfold adapt_text in Ht.
  change (key_of InvitationText) with key_output in Ht.
  destruct (obj_get key_output ms) as [[]|]; try discriminate; simpl in Ht; by invc Ht.
Qed.

(** ** Independence from the order of the keys *)

(** [adapt] on the members of an object. *)
Definition adapt_members (ms : list (jsstring * json)) : result InvitationArtifact MappingError :=
  adapt (JObject ms).

#[export] Instance adapt_members_proper : Proper (obj_equiv ==> eq) adapt_members.
Proof.
  intros ms ms' Heq. unfold adapt_members, adapt, adapt_text, adapt_optional. simpl.
  by rewrite !(Heq (key_of _)).
Qed.

(** C: for an object with distinct keys, as JSON.parse builds, the
    adapter's answer does not depend on the order of the keys. *)
Theorem adapt_order_independent (ms ms' : list (jsstring * json)) :
  List.NoDup (map fst ms) -> Permutation ms ms' ->
  adapt (JObject ms) = adapt (JObject ms').
Proof.
  intros Hnd Hp. change (adapt_members ms = adapt_members ms').
  by rewrite (perm_obj_equiv ms ms' Hnd Hp).
Qed.

(** With a duplicated key the last member wins, so the order matters. *)
Example adapt_duplicate_key_order :
  adapt (JObject [(key_output, JString (js "a")); (key_output, JNull)]) =
    Err (mkMappingError InvitationText ShapeString (Some JNull)) /\
  adapt (JObject [(key_output, JNull); (key_output, JString (js "a"))]) =
    Ok (mkInvitationArtifact (js "a") None None None None).
Proof. split; vm_compute; reflexivity. Qed.

(** ** Witnesses *)

Lemma adapt_refines_decode_witness :
  adapt (encode_output (mockApiResponse (build_jsonData spec_example_form [js "a@x.com"]))) =
  Ok (artifact_of (mockApiResponse (build_jsonData spec_example_form [js "a@x.com"]))).
Proof. apply adapt_refines_decode. vm_compute. reflexivity. Defined.

Lemma adapt_missing_text_witness :
  adapt (JObject [(key_image, JString (js "https://example.org/a.png"))]) =
  Err (mkMappingError InvitationText ShapeString None).
Proof. apply adapt_missing_text. vm_compute. reflexivity. Defined.

Lemma adapt_Ok_text_witness :
  exists ms, JObject [(key_output, JString (js "Hello"))] = JObject ms /\
    obj_get key_output ms =
    Some (JString (invitationText (mkInvitationArtifact (js "Hello") None None None None))).
Proof. apply adapt_Ok_text. vm_compute. reflexivity. Defined.

Lemma adapt_order_independent_witness :
  adapt (JObject [(key_output, JString (js "Hi")); (key_image, JString (js "u"))]) =
  adapt (JObject [(key_image, JString (js "u")); (key_output, JString (js "Hi"))]).
Proof.
  apply adapt_order_independent.
  - repeat constructor; simpl; intuition discriminate.
  - apply perm_swap.
Defined.
