(* ===== verification/Controller.v ===== *)
(** * The component: its state, [handleSubmit] and the event loop

    The state of [CreateInvitation] (lines 50-63) is [formData],
    [isSubmitting] and [invitationOutput]; the notifications of
    [react-hot-toast] are kept as the list of toasts shown. [handleSubmit]
    (lines 65-101) is an [async] function: it runs synchronously up to
    the [await] of line 90 and resumes when the 1500 ms timer fires. The
    model splits it there: [handleSubmit] is the part before the [await],
    which leaves the handler suspended with its [result] in [pending];
    [resume] is the part after it (lines 92-93 and the [finally] block).

    The events are those the page can deliver: a change of one control
    ([handleChange]), a submission of the form (the button, or Enter in a
    field), the timer that resumes the suspended handler, and the [onClose]
    callback of the output panel (lines 267-272). [dispatch] gives the
    effect of each; it is [None] for an event that cannot occur in a state
    (no timer pending, no panel shown, a select value that is not an
    option). A submission is a no-op while the button is disabled
    ([disabled={isSubmitting}], line 255) or while a [required] control
    is empty, since then the browser does not fire [onSubmit].

    The call of line 87 is taken through the [InvitationBackend] class:
    the handler and the invariants are stated for any backend, which may
    throw (the [catch] block), and [mock_backend], the code's
    [mockApiResponse], is the instance the component uses. *)

From S2P Require Import Prelude JsString HtmlInput EmailValidator FormModel Invitation.

(** ** The backend the handler calls *)

(** What a [throw] can carry: an [Error] with its message, or any other
    value. *)
Inductive Thrown :=
| ThrownError (message : jsstring)
| ThrownValue.

Class InvitationBackend := {
  submitInvitation : InvitationRequest -> result InvitationOutput Thrown
}.

(** Line 87: [const result = mockApiResponse(jsonData)], which cannot throw. *)
#[export] Instance mock_backend : InvitationBackend := {
  submitInvitation formData := Ok (mockApiResponse formData)
}.

(** ** State *)

Inductive toast :=
| ToastError (message : jsstring)
| ToastSuccess (message : jsstring).

Record State := mkState {
  formData : FormData;
  isSubmitting : bool;
  invitationOutput : option InvitationOutput;
  (** the handler suspended at its [await], with the [result] it holds *)
  pending : option InvitationOutput;
  toasts : list toast
}.

Definition initial_state : State := mkState initialFormData false None None [].

Definition invalid_emails_message : jsstring :=
  js "Please enter valid email addresses separated by commas".
Definition success_message : jsstring := js "Invitation created successfully!".
Definition fallback_message : jsstring :=
  js "Failed to send invitation. Please try again.".

(** [error instanceof Error ? error.message : '...'] (line 97). *)
Definition catch_message (e : Thrown) : jsstring :=
  match e with
  | ThrownError m => m
  | ThrownValue => fallback_message
  end.

Definition set_isSubmitting (b : bool) (st : State) : State :=
  mkState (formData st) b (invitationOutput st) (pending st) (toasts st).

Definition show_toast (t : toast) (st : State) : State :=
  mkState (formData st) (isSubmitting st) (invitationOutput st) (pending st)
    (toasts st ++ [t]).

Definition set_formData (fd : FormData) (st : State) : State :=
  mkState fd (isSubmitting st) (invitationOutput st) (pending st) (toasts st).

Definition set_invitationOutput (o : option InvitationOutput) (st : State) : State :=
  mkState (formData st) (isSubmitting st) o (pending st) (toasts st).

Section Handler.
Context `{B : InvitationBackend}.

(** Lines 65-90, up to the [await]: [setIsSubmitting(true)], the guest
    list check with its early [return] (the [finally] block resets
    [isSubmitting]), the payload, the backend call with its [catch], and
    the suspension. *)
Definition handleSubmit (st : State) : State :=
  let st1 := set_isSubmitting true st in
  match validate_guest_list (guestList (formData st)) with
  | None => set_isSubmitting false (show_toast (ToastError invalid_emails_message) st1)
  | Some emails =>
      let jsonData := build_jsonData (formData st) emails in
      match submitInvitation jsonData with
      | Err e => set_isSubmitting false (show_toast (ToastError (catch_message e)) st1)
      | Ok result =>
          mkState (formData st1) true (invitationOutput st1) (Some result) (toasts st1)
      end
  end.

(** Lines 92-93 and 98-99, after the timer: the success toast, the output,
    and [finally] [setIsSubmitting(false)]. *)
Definition resume (st : State) : State :=
  match pending st with
  | None => st
  | Some result =>
      mkState (formData st) false (Some result) None
        (toasts st ++ [ToastSuccess success_message])
  end.

(** ** Events *)

Inductive event :=
| Change (name : field) (value : jsstring)
| Submit
| Resolve
| Close.

Definition dispatch (st : State) (ev : event) : option State :=
  match ev with
  | Change name value =>
      if control_value_ok name value
      then Some (set_formData (handleChange name value (formData st)) st)
      else None
  | Submit =>
      if isSubmitting st then Some st
      else if constraints_ok (formData st) then Some (handleSubmit st)
      else Some st
  | Resolve =>
      match pending st with
      | Some _ => Some (resume st)
      | None => None
      end
  | Close =>
      match invitationOutput st with
      | Some _ => Some (set_invitationOutput None st)
      | None => None
      end
  end.

(** A sequence of events, in order. *)
Fixpoint run (st : State) (evs : list event) : option State :=
  match evs with
  | [] => Some st
  | ev :: evs' => dispatch st ev ≫= fun st' => run st' evs'
  end.

Inductive reachable : State -> Prop :=
| reachable_init : reachable initial_state
| reachable_step st ev st' :
    reachable st -> dispatch st ev = Some st' -> reachable st'.

(** ** The invariant of the reachable states *)

(** A response that the handler obtained for a form the browser let
    through, every field of which holds a value its control can carry,
    and whose guest list the code accepted. *)
Definition produced_by_submission (o : InvitationOutput) : Prop :=
  exists fd es, form_values_ok fd /\ constraints_ok fd = true /\
    validate_guest_list (guestList fd) = Some es /\
    submitInvitation (build_jsonData fd es) = Ok o.

Record state_inv (st : State) : Prop := {
  inv_submitting : isSubmitting st = true <-> is_Some (pending st);
  inv_values : form_values_ok (formData st);
  inv_pending : forall o, pending st = Some o -> produced_by_submission o;
  inv_output : forall o, invitationOutput st = Some o -> produced_by_submission o
}.

Lemma state_inv_init : state_inv initial_state.
Proof.
  constructor; simpl; [split; [done|by intros []]|apply form_values_ok_initial|by intros ? ?..].
Qed.

(** What the part of the handler before the [await] does, branch by
    branch. *)
Lemma handleSubmit_spec (st : State) :
  formData (handleSubmit st) = formData st /\
  invitationOutput (handleSubmit st) = invitationOutput st /\
  ((isSubmitting (handleSubmit st) = false /\ pending (handleSubmit st) = pending st /\
    exists msg, toasts (handleSubmit st) = toasts st ++ [ToastError msg]) \/
   (exists es o, validate_guest_list (guestList (formData st)) = Some es /\
     submitInvitation (build_jsonData (formData st) es) = Ok o /\
     isSubmitting (handleSubmit st) = true /\ pending (handleSubmit st) = Some o /\
     toasts (handleSubmit st) = toasts st)).
Proof.
  unfold handleSubmit.
  destruct (validate_guest_list _) as [es|] eqn:Hv; [|simpl; eauto 10].
  destruct (submitInvitation _) as [o|e] eqn:Hs; simpl; eauto 10.
Qed.

Lemma not_submitting_no_pending (st : State) :
  state_inv st -> isSubmitting st = false -> pending st = None.
Proof.
  intros [Hsub _ _ _] Hf. destruct (pending st) eqn:E; [|done]. exfalso.
  assert (isSubmitting st = true) by (apply Hsub; by eexists). congruence.
Qed.

Lemma handleSubmit_inv (st : State) :
  state_inv st -> isSubmitting st = false -> constraints_ok (formData st) = true ->
  state_inv (handleSubmit st).
Proof.
  intros Hinv Hf Hc. pose proof (not_submitting_no_pending st Hinv Hf) as Hnone.
  destruct Hinv as [Hsub Hval Hp Ho].
  destruct (handleSubmit_spec st) as (Hfd & Hout & [(Hs & Hpend & _)|(es & o & Hv & Hb & Hs & Hpend & _)]);
    split; rewrite ?Hfd, ?Hout, ?Hs, ?Hpend; auto.
  - rewrite Hnone. split; [done|by intros []].
  - split; [by eauto|done].
  - intros o' [= <-]. exists (formData st), es. auto.
Qed.

Lemma dispatch_inv (st st' : State) (ev : event) :
  state_inv st -> dispatch st ev = Some st' -> state_inv st'.
Proof.
  intros Hinv Hd. pose proof Hinv as [Hsub Hval Hp Ho].
  destruct ev as [name value| | |]; simpl in Hd.
  - destruct (control_value_ok name value) eqn:Hok; invc Hd. split; simpl; auto.
    by apply form_values_ok_change.
  - destruct (isSubmitting st) eqn:Hs; [by invc Hd|].
    destruct (constraints_ok _) eqn:Hc; invc Hd; [by apply handleSubmit_inv|done].
  - destruct (pending st) as [o|] eqn:Hpo; invc Hd. unfold resume. rewrite Hpo.
    constructor; simpl.
    + split; [done|by intros []].
    + done.
    + by intros ? ?.
    + intros o' [= <-]. by apply Hp.
  - destruct (invitationOutput st); invc Hd. constructor; simpl; auto. by intros ? ?.
Qed.

Lemma reachable_inv (st : State) : reachable st -> state_inv st.
Proof.
  induction 1 as [|st ev st' _ IH Hd]; [apply state_inv_init|].
  by eapply dispatch_inv.
Qed.

Lemma reachable_values_ok (st : State) : reachable st -> form_values_ok (formData st).
Proof. intros Hr. apply (inv_values st (reachable_inv st Hr)). Qed.

(** ** Behaviour of the handler *)

(** C: on an invalid guest list the handler shows the error toast and,
    through its [finally] block, leaves [isSubmitting] false; nothing else
    changes. *)
Theorem handleSubmit_invalid_guests (st : State) :
  validate_guest_list (guestList (formData st)) = None ->
  handleSubmit st =
  mkState (formData st) false (invitationOutput st) (pending st)
    (toasts st ++ [ToastError invalid_emails_message]).
Proof. intros Hv. unfold handleSubmit. by rewrite Hv. Qed.

(** C: when the backend call throws, the [catch] block shows the error's
    message (or the fallback text) and [finally] resets [isSubmitting]. *)
Theorem handleSubmit_backend_throws (st : State) (es : list jsstring) (e : Thrown) :
  validate_guest_list (guestList (formData st)) = Some es ->
  submitInvitation (build_jsonData (formData st) es) = Err e ->
  handleSubmit st =
  mkState (formData st) false (invitationOutput st) (pending st)
    (toasts st ++ [ToastError (catch_message e)]).
Proof. intros Hv He. unfold handleSubmit. by rewrite Hv, He. Qed.

(** C: in every reachable state the submit button is disabled exactly
    while a handler is suspended at its [await]. *)
Theorem submitting_iff_in_flight (st : State) :
  reachable st -> (isSubmitting st = true <-> is_Some (pending st)).
Proof. intros Hr. apply (reachable_inv st Hr). Qed.

Lemma reachable_submitting_pending (st : State) :
  reachable st -> isSubmitting st = true -> exists o, pending st = Some o.
Proof. intros Hr Hs. by apply (inv_submitting st (reachable_inv st Hr)) in Hs. Qed.

Lemma reachable_pending_submitting (st : State) (o : InvitationOutput) :
  reachable st -> pending st = Some o -> isSubmitting st = true.
Proof. intros Hr Hp. apply (inv_submitting st (reachable_inv st Hr)). by eexists. Qed.

(** C: at most one submission is in flight: while a handler is suspended,
    every event but its timer (a change, a second submission, closing
    the panel) leaves the suspended result and the disabled button as
    they are. *)
Theorem in_flight_untouched (st st' : State) (ev : event) (o : InvitationOutput) :
  reachable st -> pending st = Some o -> ev <> Resolve -> dispatch st ev = Some st' ->
  pending st' = Some o /\ isSubmitting st' = true.
Proof.
  intros Hr Hp Hne Hd.
  pose proof (reachable_pending_submitting st o Hr Hp) as Hs.
  destruct ev as [name value| | |]; simpl in Hd; [| |done|].
  - destruct (control_value_ok name value); invc Hd. done.
  - rewrite Hs in Hd. by invc Hd.
  - destruct (invitationOutput st); invc Hd. done.
Qed.

(** C: a suspended handler can always complete: its timer is enabled, and
    resuming it shows the success toast and the result it holds and
    re-enables the button. *)
Theorem in_flight_completes (st : State) :
  reachable st -> isSubmitting st = true ->
  exists o st', pending st = Some o /\ dispatch st Resolve = Some st' /\
    isSubmitting st' = false /\ invitationOutput st' = Some o /\ pending st' = None /\
    toasts st' = toasts st ++ [ToastSuccess success_message].
Proof.
  intros Hr Hs. destruct (reachable_submitting_pending st Hr Hs) as [o Ho].
  exists o, (resume st). simpl. rewrite Ho. unfold resume. rewrite Ho. by eauto 10.
Qed.

(** C: for every backend, every output the panel shows is the backend's
    answer to the payload of a form that passed the browser's
    constraints, whose fields hold values their controls can carry, and
    whose guest list the code accepted; the payload carries exactly the
    accepted addresses. The statement is for every backend because the
    code's mock ignores the guest list: only a backend that reads the
    payload makes the guest-list check observable in the output. *)
Theorem shown_output_from_valid_form (st : State) (o : InvitationOutput) :
  reachable st -> invitationOutput st = Some o ->
  exists fd es, form_values_ok fd /\ constraints_ok fd = true /\
    validate_guest_list (guestList fd) = Some es /\
    submitInvitation (build_jsonData fd es) = Ok o.
Proof. intros Hr Ho. by apply (inv_output st (reachable_inv st Hr)). Qed.

(** C: every form the browser lets through carries one of the three
    event types of the select, so the spec's [UnknownEventType] cannot
    arise from the page. *)
Theorem submitted_event_type_recognised (st : State) :
  reachable st -> constraints_ok (formData st) = true ->
  exists et, parse_event_type (eventType (formData st)) = Some et.
Proof.
  intros Hr Hc. apply parse_event_type_options.
  { apply form_values_ok_event_type, reachable_values_ok, Hr. }
  by apply (constraints_ok_required _ FEventType); [|left].
Qed.

(** C: every form the browser lets through from a reachable state, the
    form [handleSubmit] turns into the payload, has an [eventDate] and an
    [rsvpDeadline] that are valid date strings, an [eventTime] that is a
    valid time string, and no line break in the host names, the venue or
    the guest list: the values the date, time and text inputs give. *)
Theorem submitted_values_well_formed (st : State) :
  reachable st -> constraints_ok (formData st) = true ->
  valid_date_string (eventDate (formData st)) = true /\
  valid_date_string (rsvpDeadline (formData st)) = true /\
  valid_time_string (eventTime (formData st)) = true /\
  Forall (fun s => no_line_break s = true)
    [hostNames (formData st); venue (formData st); guestList (formData st)].
Proof. intros Hr Hc. apply filled_form_well_formed; [by apply reachable_values_ok|done]. Qed.

(** ** Sequences of events *)

Lemma run_app (st : State) (l1 l2 : list event) :
  run st (l1 ++ l2) = run st l1 ≫= fun s => run s l2.
Proof.
  revert st. induction l1 as [|ev l1 IH]; intros st; simpl; [done|].
  destruct (dispatch st ev); simpl; [apply IH|done].
Qed.

Definition is_change (ev : event) : bool :=
  match ev with Change _ _ => true | _ => false end.

Lemma run_changes (st st' : State) (evs : list event) :
  Forall (fun ev => is_change ev = true) evs -> run st evs = Some st' ->
  isSubmitting st' = isSubmitting st /\ pending st' = pending st /\
  invitationOutput st' = invitationOutput st.
Proof.
  intros Hall. revert st. induction Hall as [|ev evs Hev _ IH]; intros st Hrun.
  - by invc Hrun.
  - destruct ev as [name value| | |]; try done. simpl in Hrun.
    destruct (control_value_ok name value); [|done]. by apply IH in Hrun.
Qed.

(** C: the output shown after a submission is the backend's answer to the
    form as it was when submitted, whatever the user types while the
    request is in flight. *)
Theorem submission_result_is_form_at_submit (st st' : State) (evs : list event)
    (es : list jsstring) (o : InvitationOutput) :
  isSubmitting st = false -> constraints_ok (formData st) = true ->
  validate_guest_list (guestList (formData st)) = Some es ->
  submitInvitation (build_jsonData (formData st) es) = Ok o ->
  Forall (fun ev => is_change ev = true) evs ->
  run st (Submit :: evs ++ [Resolve]) = Some st' ->
  invitationOutput st' = Some o /\ isSubmitting st' = false /\ pending st' = None.
Proof.
  intros Hs Hc Hv Hb Hall Hrun. simpl in Hrun. rewrite Hs, Hc in Hrun. simpl in Hrun.
  rewrite run_app in Hrun.
  destruct (run (handleSubmit st) evs) as [s|] eqn:Hr; [|done]. simpl in Hrun.
  apply run_changes in Hr as (_ & Hp & _); [|done].
  unfold handleSubmit in Hp. rewrite Hv, Hb in Hp. simpl in Hp.
  rewrite Hp in Hrun. simpl in Hrun. invc Hrun. unfold resume. by rewrite Hp.
Qed.

End Handler.

Lemma run_reachable `{InvitationBackend} (st st' : State) (evs : list event) :
  reachable st -> run st evs = Some st' -> reachable st'.
Proof.
  revert st. induction evs as [|ev evs IH]; intros st Hr Hrun; simpl in Hrun.
  - by invc Hrun.
  - destruct (dispatch st ev) as [s|] eqn:Hd; [|done].
    apply (IH s); [by eapply reachable_step|done].
Qed.

(** ** Every submission is reported *)

Section Reporting.
Context `{B : InvitationBackend}.

(** The submit events that run [handleSubmit]: not while the button is
    disabled, and only once the browser's constraints hold. *)
Definition submit_handled (st : State) (ev : event) : nat :=
  match ev with
  | Submit => if isSubmitting st then 0 else if constraints_ok (formData st) then 1 else 0
  | _ => 0
  end.

(** How many runs of [handleSubmit] a sequence of events causes. *)
Fixpoint handled_submits (st : State) (evs : list event) : nat :=
  match evs with
  | [] => 0
  | ev :: evs' =>
      match dispatch st ev with
      | Some st' => submit_handled st ev + handled_submits st' evs'
      | None => 0
      end
  end.

(** The submission suspended at its [await], counted. *)
Definition in_flight (st : State) : nat :=
  match pending st with Some _ => 1 | None => 0 end.

Lemma dispatch_reports (st st' : State) (ev : event) :
  state_inv st -> dispatch st ev = Some st' ->
  length (toasts st') + in_flight st' = length (toasts st) + in_flight st + submit_handled st ev.
Proof.
  intros Hinv Hd. unfold in_flight.
  destruct ev as [f v| | |]; simpl in Hd |- *.
  - destruct (control_value_ok f v); invc Hd. simpl. lia.
  - destruct (isSubmitting st) eqn:Hs; [invc Hd; lia|].
    pose proof (not_submitting_no_pending st Hinv Hs) as Hn.
    destruct (constraints_ok _); invc Hd; [|rewrite Hn; lia].
    destruct (handleSubmit_spec st)
      as (_ & _ & [(_ & Hp & msg & ->)|(es & o & _ & _ & _ & -> & ->)]);
      rewrite ?Hp, Hn, ?length_app; simpl; lia.
  - destruct (pending st) eqn:Hp; invc Hd. unfold resume. rewrite Hp. simpl.
    rewrite length_app. simpl. lia.
  - destruct (invitationOutput st); invc Hd. simpl. lia.
Qed.

Lemma run_reports (evs : list event) (st0 st : State) :
  state_inv st0 -> run st0 evs = Some st ->
  length (toasts st) + in_flight st = length (toasts st0) + in_flight st0 + handled_submits st0 evs.
Proof.
  revert st0. induction evs as [|ev evs IH]; intros st0 Hinv Hrun; simpl in Hrun |- *.
  - invc Hrun. lia.
  - destruct (dispatch st0 ev) as [s|] eqn:Hd; [|done]. simpl in Hrun.
    rewrite (IH s) by (done || by eapply dispatch_inv).
    rewrite (dispatch_reports st0 s ev Hinv Hd). lia.
Qed.

(** C: the component never drops a submission silently: after any
    sequence of page events, the toasts shown plus the submission still
    in flight count exactly the runs of [handleSubmit]. Each run is
    reported once: by an error toast when it returns early or its backend
    call throws, or by the success toast when its timer fires. *)
Theorem every_submission_reported (evs : list event) (st : State) :
  run initial_state evs = Some st ->
  length (toasts st) + in_flight st = handled_submits initial_state evs.
Proof. intros Hrun. rewrite (run_reports evs initial_state st state_inv_init Hrun). done. Qed.

End Reporting.

(** ** The component with the code's mock backend *)

(** C: on a valid guest list the handler suspends at its [await] holding
    the mock's answer to the form, with the button disabled and the
    previous output still shown. *)
Theorem handleSubmit_valid_guests (st : State) (es : list jsstring) :
  validate_guest_list (guestList (formData st)) = Some es ->
  handleSubmit st =
  mkState (formData st) true (invitationOutput st)
    (Some (mockApiResponse (build_jsonData (formData st) es))) (toasts st).
Proof. intros Hv. unfold handleSubmit. by rewrite Hv. Qed.

(** C: submitting the form from a reachable state where no submission
    is in flight, and letting the timer fire, shows an invitation that
    writes out this form's date, time, venue and RSVP deadline; the date
    and the deadline are valid date strings and the time a valid time
    string. The date and time inputs, the [required] checks, the handler,
    [resume] and the mock's template compose to give this. *)
Theorem submit_then_resolve_shows_form (st st1 st2 : State) (o : InvitationOutput) :
  reachable st -> isSubmitting st = false ->
  dispatch st Submit = Some st1 -> dispatch st1 Resolve = Some st2 ->
  invitationOutput st2 = Some o ->
  valid_date_string (eventDate (formData st)) = true /\
  valid_date_string (rsvpDeadline (formData st)) = true /\
  valid_time_string (eventTime (formData st)) = true /\
  Forall (fun x => infix_of x (output o))
    [eventDate (formData st); eventTime (formData st); venue (formData st);
     rsvpDeadline (formData st)].
Proof.
  intros Hr Hs H1 H2 Ho.
  pose proof (not_submitting_no_pending st (reachable_inv st Hr) Hs) as Hn.
  simpl in H1. rewrite Hs in H1.
  destruct (constraints_ok (formData st)) eqn:Hc; invc H1;
    [|simpl in H2; rewrite Hn in H2; discriminate].
  unfold handleSubmit in H2. destruct (validate_guest_list _) as [es|] eqn:Hv;
    simpl in H2; [|rewrite Hn in H2; discriminate].
  invc H2. simpl in Ho. invc Ho.
  destruct (filled_form_well_formed _ (reachable_values_ok st Hr) Hc) as (Hd & Hr' & Ht & _).
  split_and!; [done..|].
  pose proof (mock_output_mentions (build_jsonData (formData st) es)) as Hm.
  apply Forall_forall. intros x Hx. apply (proj1 (Forall_forall _ _) Hm). simpl. set_solver.
Qed.

(** C: closing the panel (the spec's reset) hides the output, and a
    valid form can then be submitted again. *)
Theorem close_then_resubmit (st st1 : State) (es : list jsstring) :
  isSubmitting st = false -> dispatch st Close = Some st1 ->
  constraints_ok (formData st) = true ->
  validate_guest_list (guestList (formData st)) = Some es ->
  invitationOutput st1 = None /\
  dispatch st1 Submit =
  Some (mkState (formData st) true None
          (Some (mockApiResponse (build_jsonData (formData st) es))) (toasts st)).
Proof.
  intros Hs Hd Hc Hv. simpl in Hd.
  destruct (invitationOutput st); invc Hd. split; [done|]. simpl.
  rewrite Hs, Hc. unfold handleSubmit. simpl. by rewrite Hv.
Qed.

(** ** A concrete session, and the witnesses *)

(** Typing the example form of the spec into the controls, in order. *)
Definition fill_events (fd : FormData) : list event :=
  [Change FEventType (eventType fd); Change FHostNames (hostNames fd);
   Change FEventDate (eventDate fd); Change FEventTime (eventTime fd);
   Change FVenue (venue fd); Change FRsvpDeadline (rsvpDeadline fd);
   Change FCustomMessage (customMessage fd); Change FGuestList (guestList fd)].

Definition session (evs : list event) : State :=
  default initial_state (run initial_state evs).

Definition example_filled : State := session (fill_events spec_example_form).
Definition example_in_flight : State := session (fill_events spec_example_form ++ [Submit]).
Definition example_done : State :=
  session (fill_events spec_example_form ++ [Submit; Resolve]).

Definition example_emails : list jsstring := [js "a@x.com"; js "b@y.com"].

Lemma session_reachable (evs : list event) :
  is_Some (run initial_state evs) -> reachable (session evs).
Proof.
  intros [st Hst]. unfold session. rewrite Hst.
  eapply run_reachable; [constructor|done].
Qed.

Ltac reachable_session := apply session_reachable; vm_compute; eexists; reflexivity.

(** The code does not compare the two dates, which section 3 of the spec
    leaves open: a form whose RSVP deadline falls after the event is
    submitted like any other. *)
Example rsvp_after_event_submitted :
  exists st, run initial_state
    (fill_events (handleChange FRsvpDeadline (js "2025-07-01") spec_example_form) ++ [Submit])
    = Some st /\ isSubmitting st = true /\ is_Some (pending st).
Proof. eexists. split; [vm_compute; reflexivity|split; [reflexivity|by eexists]]. Qed.

Lemma submitting_iff_in_flight_witness :
  isSubmitting example_in_flight = true <-> is_Some (pending example_in_flight).
Proof. apply submitting_iff_in_flight. reachable_session. Defined.

Lemma in_flight_untouched_witness :
  pending (default example_in_flight
             (dispatch example_in_flight (Change FVenue (js "Town Hall")))) =
    pending example_in_flight /\
  isSubmitting (default example_in_flight
                  (dispatch example_in_flight (Change FVenue (js "Town Hall")))) = true.
Proof.
  apply (in_flight_untouched example_in_flight _ (Change FVenue (js "Town Hall"))).
  - reachable_session.
  - vm_compute. reflexivity.
  - discriminate.
  - vm_compute. reflexivity.
Defined.

Lemma in_flight_completes_witness :
  exists o st', pending example_in_flight = Some o /\
    dispatch example_in_flight Resolve = Some st' /\
    isSubmitting st' = false /\ invitationOutput st' = Some o /\ pending st' = None /\
    toasts st' = toasts example_in_flight ++ [ToastSuccess success_message].
Proof. apply in_flight_completes; [reachable_session|vm_compute; reflexivity]. Defined.

Lemma shown_output_from_valid_form_witness :
  exists fd es, form_values_ok fd /\ constraints_ok fd = true /\
    validate_guest_list (guestList fd) = Some es /\
    submitInvitation (build_jsonData fd es) =
      Ok (default (mockApiResponse (build_jsonData initialFormData []))
            (invitationOutput example_done)).
Proof.
  apply (shown_output_from_valid_form example_done).
  - reachable_session.
  - vm_compute. reflexivity.
Defined.

Lemma submit_then_resolve_shows_form_witness :
  valid_date_string (eventDate (formData example_filled)) = true /\
  valid_date_string (rsvpDeadline (formData example_filled)) = true /\
  valid_time_string (eventTime (formData example_filled)) = true /\
  Forall (fun x => infix_of x
    (output (default (mockApiResponse (build_jsonData initialFormData []))
               (invitationOutput example_done))))
    [eventDate (formData example_filled); eventTime (formData example_filled);
     venue (formData example_filled); rsvpDeadline (formData example_filled)].
Proof.
  apply (submit_then_resolve_shows_form example_filled example_in_flight example_done).
  - reachable_session.
  - vm_compute. reflexivity.
  - vm_compute. reflexivity.
  - vm_compute. reflexivity.
  - vm_compute. reflexivity.
Defined.

Lemma submitted_event_type_recognised_witness :
  exists et, parse_event_type (eventType (formData example_filled)) = Some et.
Proof.
  apply submitted_event_type_recognised; [reachable_session|vm_compute; reflexivity].
Defined.

Lemma submitted_values_well_formed_witness :
  valid_date_string (eventDate (formData example_filled)) = true /\
  valid_date_string (rsvpDeadline (formData example_filled)) = true /\
  valid_time_string (eventTime (formData example_filled)) = true /\
  Forall (fun s => no_line_break s = true)
    [hostNames (formData example_filled); venue (formData example_filled);
     guestList (formData example_filled)].
Proof.
  apply submitted_values_well_formed; [reachable_session|vm_compute; reflexivity].
Defined.

Lemma submission_result_is_form_at_submit_witness :
  let st' := session (fill_events spec_example_form ++
                      [Submit; Change FVenue (js "Town Hall"); Resolve]) in
  invitationOutput st' =
    Some (mockApiResponse (build_jsonData spec_example_form example_emails)) /\
  isSubmitting st' = false /\ pending st' = None.
Proof.
  apply (submission_result_is_form_at_submit example_filled _
           [Change FVenue (js "Town Hall")] example_emails).
  all: vm_compute; try reflexivity.
  repeat constructor.
Defined.

Lemma handleSubmit_invalid_guests_witness :
  handleSubmit initial_state =
  mkState (formData initial_state) false (invitationOutput initial_state)
    (pending initial_state) (toasts initial_state ++ [ToastError invalid_emails_message]).
Proof. apply handleSubmit_invalid_guests. vm_compute. reflexivity. Defined.

(** A backend whose call throws an [Error]. *)
Definition unavailable_backend : InvitationBackend :=
  {| submitInvitation _ := Err (ThrownError (js "Network error")) |}.

Lemma handleSubmit_backend_throws_witness :
  @handleSubmit unavailable_backend example_filled =
  mkState (formData example_filled) false (invitationOutput example_filled)
    (pending example_filled)
    (toasts example_filled ++ [ToastError (catch_message (ThrownError (js "Network error")))]).
Proof.
  apply (@handleSubmit_backend_throws unavailable_backend _ example_emails);
    vm_compute; reflexivity.
Defined.

Lemma handleSubmit_valid_guests_witness :
  handleSubmit example_filled =
  mkState (formData example_filled) true (invitationOutput example_filled)
    (Some (mockApiResponse (build_jsonData (formData example_filled) example_emails)))
    (toasts example_filled).
Proof. apply handleSubmit_valid_guests. vm_compute. reflexivity. Defined.

Lemma close_then_resubmit_witness :
  invitationOutput (set_invitationOutput None example_done) = None /\
  dispatch (set_invitationOutput None example_done) Submit =
  Some (mkState (formData example_done) true None
          (Some (mockApiResponse (build_jsonData (formData example_done) example_emails)))
          (toasts example_done)).
Proof. apply close_then_resubmit; vm_compute; reflexivity. Defined.

Lemma every_submission_reported_witness :
  run initial_state (fill_events spec_example_form ++ [Submit; Resolve]) = Some example_done /\
  length (toasts example_done) + in_flight example_done =
    handled_submits initial_state (fill_events spec_example_form ++ [Submit; Resolve]).
Proof.
  split; [vm_compute; reflexivity|].
  apply every_submission_reported. vm_compute. reflexivity.
Defined.
