(* ===== verification/SubmissionSpec.v ===== *)
(** * The spec's submission state machine, and the component against it

    Section 4.3 of the spec describes the SubmissionController as a
    machine over [Idle], [Submitting], [Succeeded] and [Failed]: a valid
    submission moves [Idle] (or [Failed], for a retry) to [Submitting]; the
    backend's answer moves [Submitting] to [Succeeded] or [Failed]; a
    reset moves a terminal state back to [Idle]; a submission while
    [Submitting] and an invalid form change nothing. The code has no such
    variable: [abstract_state] reads the machine state off the
    component's state (a suspended handler is [Submitting], a shown output
    is [Succeeded]). [dispatch_refines_spec] shows that every event of the
    component either leaves the abstract state as it is or is a step of
    the spec's machine, with one exception: a submission from
    [Succeeded], which the page allows because the form stays enabled
    while the output is shown. *)

From S2P Require Import Prelude EmailValidator FormModel Invitation Controller.

Inductive SubmissionState :=
| Idle
| Submitting
| Succeeded (artifact : InvitationOutput)
| Failed (message : jsstring).

Inductive spec_step : SubmissionState -> SubmissionState -> Prop :=
| SubmitAccepted : spec_step Idle Submitting
| SubmitRetry m : spec_step (Failed m) Submitting
| BackendSucceeded a : spec_step Submitting (Succeeded a)
| BackendFailed m : spec_step Submitting (Failed m)
| ResetSucceeded a : spec_step (Succeeded a) Idle
| ResetFailed m : spec_step (Failed m) Idle.

#[export] Hint Constructors spec_step : celebrify.

Definition abstract_state (st : State) : SubmissionState :=
  match pending st, invitationOutput st with
  | Some _, _ => Submitting
  | None, Some o => Succeeded o
  | None, None => Idle
  end.

Section Refinement.
Context `{B : InvitationBackend}.

Lemma abstract_state_frame (st st' : State) :
  pending st' = pending st -> invitationOutput st' = invitationOutput st ->
  abstract_state st' = abstract_state st.
Proof. unfold abstract_state. by intros -> ->. Qed.

(** C: every event of the component is a stutter or a step of the spec's
    machine, except a submission made while an output is shown, which
    goes from [Succeeded] straight to [Submitting]. *)
Theorem dispatch_refines_spec (st st' : State) (ev : event) :
  reachable st -> dispatch st ev = Some st' ->
  abstract_state st' = abstract_state st \/
  spec_step (abstract_state st) (abstract_state st') \/
  (ev = Submit /\ exists o, abstract_state st = Succeeded o /\ abstract_state st' = Submitting).
Proof.
  intros Hr Hd. destruct ev as [name value| | |]; simpl in Hd.
  - destruct (control_value_ok name value); invc Hd. left. by apply abstract_state_frame.
  - destruct (isSubmitting st) eqn:Hs; [invc Hd; by left|].
    destruct (constraints_ok _); invc Hd; [|by left].
    destruct (handleSubmit_spec st) as (_ & Hout & [(_ & Hp & _)|(es & o & _ & _ & _ & Hp & _)]).
    + left. by apply abstract_state_frame.
    + assert (pending st = None) as Hnone.
      { destruct (pending st) as [o'|] eqn:E; [|done]. exfalso.
        pose proof (reachable_pending_submitting st o' Hr E). congruence. }
      unfold abstract_state. rewrite Hp, Hnone.
      destruct (invitationOutput st); [right; right; eauto|right; left; constructor].
  - destruct (pending st) as [o|] eqn:Hp; invc Hd. right; left.
    unfold abstract_state, resume. rewrite Hp. simpl. constructor.
  - destruct (invitationOutput st) as [o|] eqn:Ho; invc Hd.
    unfold abstract_state; simpl. rewrite Ho.
    destruct (pending st); [by left|right; left; constructor].
Qed.

End Refinement.

Lemma dispatch_refines_spec_witness :
  let st' := resume example_in_flight in
  abstract_state st' = abstract_state example_in_flight \/
  spec_step (abstract_state example_in_flight) (abstract_state st') \/
  (Resolve = Submit /\ exists o, abstract_state example_in_flight = Succeeded o /\
                                 abstract_state st' = Submitting).
Proof.
  apply (dispatch_refines_spec example_in_flight _ Resolve).
  - reachable_session.
  - vm_compute. reflexivity.
Defined.

(** The exception is reachable: after a first invitation is shown, a
    second submission starts while the first output is still on screen,
    a mix of [Succeeded] and [Submitting] the spec rules out. *)
Example resubmit_from_succeeded :
  reachable example_done /\
  (exists o, abstract_state example_done = Succeeded o) /\
  option_map abstract_state (dispatch example_done Submit) = Some Submitting /\
  option_map (fun st => bool_decide (is_Some (invitationOutput st)))
    (dispatch example_done Submit) = Some true.
Proof.
  split; [reachable_session|]. split; [eexists; vm_compute; reflexivity|].
  split; vm_compute; reflexivity.
Qed.
